(** * The virtualised [Select] widget of the Ace code editor plugin

    A shallow embedding of [src/component/select/Select.tsx]: the values the
    component derives on every render, the tree it renders, its event
    handlers and its three effects, followed by the properties of the
    widget that are established on that embedding. *)

From Stdlib Require Import ZArith QArith Qround List String Bool Lia.
From Stdlib Require Import Permutation.
Import ListNotations.
Open Scope Z_scope.

(** ** The fragment of JavaScript the component relies on *)

Module Js.

(** Numbers.  Finite doubles are represented by the rational they denote,
    so that [+0] and [-0] coincide, as they do under [===]. *)
Inductive number : Type :=
| NaN
| Infinity (negative : bool)
| Finite (q : Q).

(** Values of type [unknown]: primitives, and objects by reference. *)
Inductive value : Type :=
| VUndefined
| VNull
| VBoolean (b : bool)
| VNumber (n : number)
| VString (s : string)
| VObject (ref : nat).

Definition number_equal (x y : number) : bool :=
  match x, y with
  | Finite p, Finite q => Qeq_bool p q
  | Infinity a, Infinity b => Bool.eqb a b
  | _, _ => false
  end.

(** [x === y] *)
Definition strict_equals (x y : value) : bool :=
  match x, y with
  | VUndefined, VUndefined => true
  | VNull, VNull => true
  | VBoolean a, VBoolean b => Bool.eqb a b
  | VNumber a, VNumber b => number_equal a b
  | VString a, VString b => String.eqb a b
  | VObject a, VObject b => Nat.eqb a b
  | _, _ => false
  end.

Section Arrays.
Context {A : Type}.

(** [Array.prototype.find]: the first element satisfying [p]. *)
Fixpoint find (p : A -> bool) (l : list A) : option A :=
  match l with
  | [] => None
  | x :: r => if p x then Some x else find p r
  end.

Fixpoint findIndexFrom (p : A -> bool) (l : list A) (i : Z) : Z :=
  match l with
  | [] => -1
  | x :: r => if p x then i else findIndexFrom p r (i + 1)
  end.

(** [Array.prototype.findIndex]: the index of that element, or [-1]. *)
Definition findIndex (p : A -> bool) (l : list A) : Z :=
  findIndexFrom p l 0.

(** How [slice] resolves one of its integer arguments against the
    length: a negative argument counts from the end. *)
Definition relativeIndex (len i : Z) : Z :=
  if i <? 0 then Z.max (len + i) 0 else Z.min i len.

(** [Array.prototype.slice (start, end)] *)
Definition slice (l : list A) (start end_ : Z) : list A :=
  let len := Z.of_nat (List.length l) in
  let k := relativeIndex len start in
  let final := relativeIndex len end_ in
  firstn (Z.to_nat (Z.max (final - k) 0)) (skipn (Z.to_nat k) l).

Fixpoint mapiFrom {B : Type} (f : A -> Z -> B) (l : list A) (i : Z) : list B :=
  match l with
  | [] => []
  | x :: r => f x i :: mapiFrom f r (i + 1)
  end.

(** [Array.prototype.map] with the two-argument callback
    [(element, index) => ...]. *)
Definition mapi {B : Type} (f : A -> Z -> B) (l : list A) : list B :=
  mapiFrom f l 0.

(** [l[i]] for an integer index; [None] stands for [undefined]. *)
Definition at_ (l : list A) (i : Z) : option A :=
  if i <? 0 then None else nth_error l (Z.to_nat i).
End Arrays.

(** [Math.floor (x / d)] on exact numbers. *)
Definition floorDiv (x : Q) (d : Z) : Z := Qfloor (x / inject_Z d).

End Js.

(** ** Props and hook state *)

Module SelectOption.
Record t : Type := make { value : Js.value; label : string }.
End SelectOption.

(** An array handed over as a prop: React compares effect dependencies
    with [Object.is], which on arrays is identity of the reference. *)
Record OptionsArray : Type := {
  identity : nat;
  elements : list SelectOption.t
}.

Record SelectProps : Type := {
  value : Js.value;
  options : OptionsArray;
  placeholder : string;
  className : string
}.

(** The default of the [placeholder] prop. *)
Definition defaultPlaceholder : string := "Select an option".

(** The three [useState] cells. *)
Record State : Type := {
  isOpen : bool;
  maxDropdownWidth : Z;
  visibleStartIndex : Z
}.

Definition initialState : State :=
  {| isOpen := false; maxDropdownWidth := 0; visibleStartIndex := 0 |}.

Definition setIsOpen (b : bool) (s : State) : State :=
  {| isOpen := b;
     maxDropdownWidth := maxDropdownWidth s;
     visibleStartIndex := visibleStartIndex s |}.

Definition setMaxDropdownWidth (w : Z) (s : State) : State :=
  {| isOpen := isOpen s;
     maxDropdownWidth := w;
     visibleStartIndex := visibleStartIndex s |}.

Definition setVisibleStartIndex (i : Z) (s : State) : State :=
  {| isOpen := isOpen s;
     maxDropdownWidth := maxDropdownWidth s;
     visibleStartIndex := i |}.

(** ** Values derived on every render *)

Definition itemHeight : Z := 36.
Definition visibleItems : Z := 10.
Definition bufferItems : Z := 5.

Definition optionCount (p : SelectProps) : Z :=
  Z.of_nat (List.length (elements (options p))).

Definition matches (v : Js.value) (opt : SelectOption.t) : bool :=
  Js.strict_equals (SelectOption.value opt) v.

Definition selectedOption (p : SelectProps) : option SelectOption.t :=
  Js.find (matches (value p)) (elements (options p)).

Definition selectedIndex (p : SelectProps) : Z :=
  Js.findIndex (matches (value p)) (elements (options p)).

Definition totalHeight (p : SelectProps) : Z := optionCount p * itemHeight.

Definition visibleOptionsStartIndex (s : State) : Z :=
  Z.max 0 (visibleStartIndex s - bufferItems).

Definition visibleOptionsEndIndex (p : SelectProps) (s : State) : Z :=
  Z.min (visibleStartIndex s + visibleItems + bufferItems) (optionCount p).

Definition visibleOptions (p : SelectProps) (s : State) : list SelectOption.t :=
  Js.slice (elements (options p))
           (visibleOptionsStartIndex s) (visibleOptionsEndIndex p s).

(** ** The rendered tree *)

Inductive CssWidth : Type :=
| Px (w : Z)
| Auto.

Inductive Chevron : Type := ChevronUp | ChevronDown.

(** One [.ace-select-option] row.  [actualIndex] is the index the render
    callback computes for the row, [top] and [height] are in pixels, and
    [onClickValue] is the [option.value] captured by the click handler.
    The React [key] is left out: it only guides reconciliation; so is the
    [ref] handed to selected rows, which the component never reads. *)
Record OptionRow : Type := {
  actualIndex : Z;
  isSelected : bool;
  rowClassName : string;
  top : Z;
  height : Z;
  text : string;
  onClickValue : Js.value
}.

Definition renderOption (p : SelectProps) (s : State)
    (option : SelectOption.t) (index : Z) : OptionRow :=
  let actualIndex := Z.max 0 (visibleStartIndex s - bufferItems) + index in
  let isSelected := Js.strict_equals (SelectOption.value option) (value p) in
  {| actualIndex := actualIndex;
     isSelected := isSelected;
     rowClassName :=
       ("ace-select-option " ++ (if isSelected then "selected" else EmptyString))%string;
     top := actualIndex * itemHeight;
     height := itemHeight;
     text := SelectOption.label option;
     onClickValue := SelectOption.value option |}.

Definition renderedRows (p : SelectProps) (s : State) : list OptionRow :=
  Js.mapi (renderOption p s) (visibleOptions p s).

(** The [.ace-select-dropdown] element with its spacer container. *)
Record Dropdown : Type := {
  dropdownWidth : CssWidth;
  containerHeight : Z;
  rows : list OptionRow
}.

(** The [.ace-select-wrapper] element. *)
Record View : Type := {
  controlClassName : string;
  controlWidth : CssWidth;
  controlText : string;
  arrow : Chevron;
  dropdown : option Dropdown
}.

Definition render (p : SelectProps) (s : State) : View :=
  {| controlClassName :=
       ("ace-select " ++ (if isOpen s then "ace-select-open" else EmptyString)
          ++ " " ++ className p)%string;
     controlWidth :=
       if isOpen s && (0 <? maxDropdownWidth s) then Px (maxDropdownWidth s) else Auto;
     controlText :=
       match selectedOption p with
       | Some opt => SelectOption.label opt
       | None => placeholder p
       end;
     arrow := if isOpen s then ChevronUp else ChevronDown;
     dropdown :=
       if isOpen s then
         Some {| dropdownWidth :=
                   if 0 <? maxDropdownWidth s then Px (maxDropdownWidth s) else Auto;
                 containerHeight := totalHeight p;
                 rows := renderedRows p s |}
       else None |}.

(** ** The host: the document, layout, and what the widget does to them *)

Definition Node : Type := nat.

(** What [getComputedStyle (document.body)] is read for. *)
Record ComputedStyle : Type := {
  fontFamily : string;
  fontSize : string
}.

(** The inline style given to the measuring [span]. *)
Record ProbeStyle : Type := {
  probePosition : string;
  probeVisibility : string;
  probeWhiteSpace : string;
  probeFontFamily : string;
  probeFontSize : string;
  probePadding : string
}.

(** The services of the host the measurement uses.  [getComputedStyle] is
    [None] when the host cannot deliver the computed style of the body (the
    call throws, or returns [null] and the property read throws);
    [offsetWidth st txt] is the laid-out width of a [span] styled [st] whose
    [textContent] is [txt]. *)
Record Host : Type := {
  getComputedStyle : option ComputedStyle;
  offsetWidth : ProbeStyle -> string -> Z
}.

(** Listeners for ["mousedown"] on [document]: the widget's own closure, or
    one that belongs to other code of the page. *)
Inductive Listener : Type :=
| HandleClickOutside
| Foreign (id : nat).

Definition isOwnListener (l : Listener) : bool :=
  match l with HandleClickOutside => true | Foreign _ => false end.

(** What leaves the component or touches the page, in order. *)
Inductive Call : Type :=
| OnChange (v : Js.value)
| AppendChild (n : Node)
| RemoveChild (n : Node)
| SetMaxDropdownWidth (w : Z).

Inductive Exception : Type :=
| TypeError
| NotFoundError.

(** The page together with the widget.  [mounted] holds the props of
    the last render while the widget is mounted; [dropdownRef] is
    [dropdownRef.current], represented by the [scrollTop] of the dropdown
    element; [selectRef.current] is non-null exactly while [mounted] is. *)
Record World : Type := {
  bodyChildren : list Node;
  nextNode : Node;
  mousedownListeners : list Listener;
  mounted : option SelectProps;
  state : State;
  dropdownRef : option Q;
  log : list Call
}.

(** *** A state and exception monad over the world *)

Inductive Outcome (A : Type) : Type :=
| Returned (a : A) (w : World)
| Thrown (e : Exception) (w : World).
Arguments Returned {A} a w.
Arguments Thrown {A} e w.

Definition M (A : Type) : Type := World -> Outcome A.

Definition ret {A : Type} (a : A) : M A := fun w => Returned a w.

Definition bind {A B : Type} (c : M A) (k : A -> M B) : M B :=
  fun w =>
    match c w with
    | Returned a w' => k a w'
    | Thrown e w' => Thrown e w'
    end.

Definition throw {A : Type} (e : Exception) : M A := fun w => Thrown e w.

Definition get : M World := fun w => Returned w w.

Definition modify (f : World -> World) : M unit := fun w => Returned tt (f w).

Declare Scope select_scope.
Delimit Scope select_scope with select.
Notation "x <- c ;; k" := (bind c (fun x => k))
  (at level 61, c at next level, right associativity) : select_scope.
Notation "c ;; k" := (bind c (fun _ => k))
  (at level 61, right associativity) : select_scope.
Open Scope select_scope.

Fixpoint forEach {A : Type} (l : list A) (f : A -> M unit) : M unit :=
  match l with
  | [] => ret tt
  | x :: r => f x ;; forEach r f
  end.

(** *** Field updates *)

Definition withBody (f : list Node -> list Node) (w : World) : World :=
  {| bodyChildren := f (bodyChildren w); nextNode := nextNode w;
     mousedownListeners := mousedownListeners w; mounted := mounted w;
     state := state w; dropdownRef := dropdownRef w; log := log w |}.

Definition withNextNode (n : Node) (w : World) : World :=
  {| bodyChildren := bodyChildren w; nextNode := n;
     mousedownListeners := mousedownListeners w; mounted := mounted w;
     state := state w; dropdownRef := dropdownRef w; log := log w |}.

Definition withListeners (f : list Listener -> list Listener) (w : World) : World :=
  {| bodyChildren := bodyChildren w; nextNode := nextNode w;
     mousedownListeners := f (mousedownListeners w); mounted := mounted w;
     state := state w; dropdownRef := dropdownRef w; log := log w |}.

Definition withMounted (m : option SelectProps) (w : World) : World :=
  {| bodyChildren := bodyChildren w; nextNode := nextNode w;
     mousedownListeners := mousedownListeners w; mounted := m;
     state := state w; dropdownRef := dropdownRef w; log := log w |}.

Definition withState (f : State -> State) (w : World) : World :=
  {| bodyChildren := bodyChildren w; nextNode := nextNode w;
     mousedownListeners := mousedownListeners w; mounted := mounted w;
     state := f (state w); dropdownRef := dropdownRef w; log := log w |}.

Definition withDropdownRef (d : option Q) (w : World) : World :=
  {| bodyChildren := bodyChildren w; nextNode := nextNode w;
     mousedownListeners := mousedownListeners w; mounted := mounted w;
     state := state w; dropdownRef := d; log := log w |}.

Definition record (c : Call) (w : World) : World :=
  {| bodyChildren := bodyChildren w; nextNode := nextNode w;
     mousedownListeners := mousedownListeners w; mounted := mounted w;
     state := state w; dropdownRef := dropdownRef w; log := log w ++ [c] |}.

(** *** Document operations *)

Definition without (n : Node) (l : list Node) : list Node :=
  filter (fun m => negb (Nat.eqb m n)) l.

(** [document.createElement]: a node that is nowhere in the page yet. *)
Definition createElement : M Node :=
  w <- get ;;
  modify (withNextNode (S (nextNode w))) ;;
  ret (nextNode w).

(** [document.body.appendChild]: the node becomes the last child. *)
Definition appendChild (n : Node) : M unit :=
  modify (fun w => record (AppendChild n) (withBody (fun l => without n l ++ [n]) w)).

(** [document.body.removeChild]: throws unless the node is a child. *)
Definition removeChild (n : Node) : M unit :=
  w <- get ;;
  if existsb (Nat.eqb n) (bodyChildren w)
  then modify (fun w => record (RemoveChild n) (withBody (without n) w))
  else throw NotFoundError.

Definition readComputedStyle (h : Host) : M ComputedStyle :=
  match getComputedStyle h with
  | Some cs => ret cs
  | None => throw TypeError
  end.

Fixpoint removeFirstOwn (l : list Listener) : list Listener :=
  match l with
  | [] => []
  | x :: r => if isOwnListener x then r else x :: removeFirstOwn r
  end.

(** ** Effects *)

(** The first effect (dependencies [isOpen], [selectedIndex]): scroll to
    the selected option when the dropdown opens. *)
Definition scrollToSelected (p : SelectProps) : M unit :=
  w <- get ;;
  match isOpen (state w), dropdownRef w with
  | true, Some _ =>
      if 0 <=? selectedIndex p then
        let scrollPosition := selectedIndex p * itemHeight in
        modify (withDropdownRef (Some (inject_Z scrollPosition))) ;;
        modify (withState (setVisibleStartIndex
                  (Z.max 0 (selectedIndex p - visibleItems / 2))))
      else ret tt
  | _, _ => ret tt
  end.

(** The second effect (no dependencies): runs on mount, and its cleanup
    on unmount. *)
Definition addClickOutsideListener : M unit :=
  modify (withListeners (fun l => l ++ [HandleClickOutside])).

Definition removeClickOutsideListener : M unit :=
  modify (withListeners removeFirstOwn).

Definition probeStyle (family size : string) : ProbeStyle :=
  {| probePosition := "absolute";
     probeVisibility := "hidden";
     probeWhiteSpace := "nowrap";
     probeFontFamily := family;
     probeFontSize := size;
     probePadding := "8px 12px" |}.

(** The loop over the options: the running maximum of
    [tempSpan.offsetWidth + 20], started at [0]. *)
Definition measureLabels (h : Host) (st : ProbeStyle)
    (opts : list SelectOption.t) : Z :=
  fold_left
    (fun maxWidth option =>
       Z.max maxWidth (offsetWidth h st (SelectOption.label option) + 20))
    opts 0.

(** The third effect (dependency [options]): measure the widest label. *)
Definition measureOptions (h : Host) (p : SelectProps) : M unit :=
  if 0 <? optionCount p then
    tempSpan <- createElement ;;
    forFamily <- readComputedStyle h ;;
    forSize <- readComputedStyle h ;;
    let st := probeStyle (fontFamily forFamily) (fontSize forSize) in
    appendChild tempSpan ;;
    let maxWidth := measureLabels h st (elements (options p)) in
    removeChild tempSpan ;;
    modify (fun w => record (SetMaxDropdownWidth maxWidth)
                       (withState (setMaxDropdownWidth maxWidth) w))
  else ret tt.

(** ** Commit: refs are attached, then the effects whose dependencies
    changed since the previous render run in the order they are declared.
    The state these effects set is a dependency of none of them, so the
    render they schedule runs no effect again. *)

Definition attachDropdownRef : M unit :=
  modify (fun w =>
    if isOpen (state w)
    then match dropdownRef w with
         | Some _ => w
         | None => withDropdownRef (Some (inject_Z 0)) w
         end
    else withDropdownRef None w).

Definition commit (h : Host) (previousProps : SelectProps)
    (previousState : State) : M unit :=
  w <- get ;;
  match mounted w with
  | None => ret tt
  | Some p =>
      attachDropdownRef ;;
      (if Bool.eqb (isOpen previousState) (isOpen (state w))
          && (selectedIndex previousProps =? selectedIndex p)
       then ret tt else scrollToSelected p) ;;
      (if Nat.eqb (identity (options previousProps)) (identity (options p))
       then ret tt else measureOptions h p)
  end.

(** ** Events *)

(** Where a pointer event lands. *)
Inductive Target : Type :=
| TOutside
| TControl
| TDropdown
| TOption (index : Z).

(** [selectRef.current.contains (event.target)] *)
Definition contains (t : Target) : bool :=
  match t with
  | TOutside => false
  | _ => true
  end.

Inductive Event : Type :=
| Mount (p : SelectProps)
| Update (p : SelectProps)
| Unmount
| MouseDown (t : Target)
| Click (t : Target)
| Scroll (scrollTop : Q).

Definition mount (h : Host) (p : SelectProps) : M unit :=
  modify (fun w => withDropdownRef None
                     (withState (fun _ => initialState) (withMounted (Some p) w))) ;;
  attachDropdownRef ;;
  scrollToSelected p ;;
  addClickOutsideListener ;;
  measureOptions h p.

Definition update (h : Host) (p : SelectProps) : M unit :=
  w <- get ;;
  match mounted w with
  | None => ret tt
  | Some previousProps =>
      modify (withMounted (Some p)) ;;
      commit h previousProps (state w)
  end.

Definition unmount : M unit :=
  w <- get ;;
  match mounted w with
  | None => ret tt
  | Some _ =>
      removeClickOutsideListener ;;
      modify (fun w => withDropdownRef None (withMounted None w))
  end.

(** A state update from an event handler, followed by the commit of the
    render it causes. *)
Definition setState (h : Host) (f : State -> State) : M unit :=
  w <- get ;;
  match mounted w with
  | None => ret tt
  | Some p => modify (withState f) ;; commit h p (state w)
  end.

Definition handleClickOutside (h : Host) (t : Target) : M unit :=
  w <- get ;;
  match mounted w with
  | Some _ => if negb (contains t) then setState h (setIsOpen false) else ret tt
  | None => ret tt
  end.

(** What a listener of the document does with a ["mousedown"] event;
    listeners of other code are outside the widget. *)
Definition ownHandler (h : Host) (t : Target) (l : Listener) : M unit :=
  match l with
  | HandleClickOutside => handleClickOutside h t
  | Foreign _ => ret tt
  end.

Definition dispatchMouseDown (h : Host) (t : Target) : M unit :=
  w <- get ;;
  forEach (mousedownListeners w) (ownHandler h t).

(** The view on screen, when the widget is mounted. *)
Definition view (w : World) : option View :=
  match mounted w with
  | Some p => Some (render p (state w))
  | None => None
  end.

Definition rowsOnScreen (w : World) : list OptionRow :=
  match view w with
  | Some v => match dropdown v with
              | Some d => rows d
              | None => []
              end
  | None => []
  end.

Definition rowAt (w : World) (index : Z) : option OptionRow :=
  Js.find (fun r => actualIndex r =? index) (rowsOnScreen w).

Definition click (h : Host) (t : Target) : M unit :=
  w <- get ;;
  match t with
  | TControl => setState h (setIsOpen (negb (isOpen (state w))))
  | TOption index =>
      match rowAt w index with
      | Some r =>
          modify (record (OnChange (onClickValue r))) ;;
          setState h (setIsOpen false)
      | None => ret tt
      end
  | TDropdown | TOutside => ret tt
  end.

Definition handleScroll (h : Host) : M unit :=
  w <- get ;;
  match dropdownRef w with
  | Some scrollTop =>
      let newStartIndex := Js.floorDiv scrollTop itemHeight in
      setState h (setVisibleStartIndex newStartIndex)
  | None => ret tt
  end.

Definition scroll (h : Host) (scrollTop : Q) : M unit :=
  w <- get ;;
  match dropdownRef w with
  | Some _ => modify (withDropdownRef (Some scrollTop)) ;; handleScroll h
  | None => ret tt
  end.

Definition step (h : Host) (e : Event) : M unit :=
  match e with
  | Mount p => mount h p
  | Update p => update h p
  | Unmount => unmount
  | MouseDown t => dispatchMouseDown h t
  | Click t => click h t
  | Scroll scrollTop => scroll h scrollTop
  end.

(** What the page and React can deliver in a given world: a widget mounts
    once, pointer events land on elements that exist, and a scroll event
    reports an offset between [0] and the height of the scrolled content. *)
Definition targetExists (w : World) (t : Target) : bool :=
  match t with
  | TOutside => true
  | TControl => match mounted w with Some _ => true | None => false end
  | TDropdown => match dropdownRef w with Some _ => true | None => false end
  | TOption index => match rowAt w index with Some _ => true | None => false end
  end.

Definition inScrollRange (p : SelectProps) (scrollTop : Q) : bool :=
  Qle_bool 0 scrollTop && Qle_bool scrollTop (inject_Z (totalHeight p)).

Definition enabled (w : World) (e : Event) : bool :=
  match e with
  | Mount _ => match mounted w with Some _ => false | None => true end
  | Update _ | Unmount => match mounted w with Some _ => true | None => false end
  | MouseDown t | Click t => targetExists w t
  | Scroll scrollTop =>
      match mounted w, dropdownRef w with
      | Some p, Some _ => inScrollRange p scrollTop
      | _, _ => false
      end
  end.

(** A page in which the widget has not been mounted yet. *)
Definition initialWorld (body : list Node) (foreign : list nat) : World :=
  {| bodyChildren := body;
     nextNode := S (list_max body);
     mousedownListeners := map Foreign foreign;
     mounted := None;
     state := initialState;
     dropdownRef := None;
     log := [] |}.

Inductive reachable (h : Host) : World -> Prop :=
| reachable_initial (body : list Node) (foreign : list nat) :
    reachable h (initialWorld body foreign)
| reachable_step (w w' : World) (e : Event) :
    reachable h w ->
    enabled w e = true ->
    step h e w = Returned tt w' ->
    reachable h w'.

(** ** Vocabulary of the properties *)

(** Row [r] shows the option at full-list position [index], at the
    vertical position of that index. *)
Definition showsOption (p : SelectProps) (index : Z) (r : OptionRow) : Prop :=
  exists opt,
    Js.at_ (elements (options p)) index = Some opt
    /\ actualIndex r = index
    /\ top r = index * itemHeight
    /\ text r = SelectOption.label opt
    /\ onClickValue r = SelectOption.value opt
    /\ isSelected r = Js.strict_equals (SelectOption.value opt) (value p).

(** [rows] show, in order and without gap, the options at positions
    [lo], [lo + 1], ..., [hi - 1]. *)
Definition isWindow (p : SelectProps) (rows : list OptionRow) (lo hi : Z) : Prop :=
  Z.of_nat (List.length rows) = hi - lo
  /\ forall j r, nth_error rows j = Some r -> showsOption p (lo + Z.of_nat j) r.

(** What holds of every world the widget can be in: the window start is
    never negative, the nodes handed out by [createElement] are new to the
    page, and the document carries the widget's listener exactly while the
    widget is mounted. *)
Definition ownListeners (w : World) : nat :=
  List.length (filter isOwnListener (mousedownListeners w)).

Record Inv (w : World) : Prop := {
  inv_start : 0 <= visibleStartIndex (state w);
  inv_nodes : Forall (fun n => (n < nextNode w)%nat) (bodyChildren w);
  inv_listener : ownListeners w = match mounted w with Some _ => 1%nat | None => 0%nat end
}.

(** Partial correctness of a computation: if it returns from a world
    satisfying [P], the result and the world reached satisfy [Q]. *)
Definition hoare {A : Type} (P : World -> Prop) (m : M A)
    (Q : A -> World -> Prop) : Prop :=
  forall w, P w ->
    match m w with
    | Returned a w' => Q a w'
    | Thrown _ _ => True
    end.

Definition preserves {A : Type} (P : World -> Prop) (m : M A) : Prop :=
  hoare P m (fun _ => P).

(** A computation leaves a component of the world as it found it. *)
Definition keeps {A B : Type} (proj : World -> B) (m : M A) : Prop :=
  forall w,
    match m w with
    | Returned _ w' => proj w' = proj w
    | Thrown _ _ => True
    end.

(** World [w'] is world [w] after one measurement pass that cached
    [maxWidth]: the page has its children back, the log has grown by the
    three calls of the pass, and nothing else has changed but the node
    allocator. *)
Record measured (maxWidth : Z) (w w' : World) : Prop := {
  measured_body : bodyChildren w' = bodyChildren w;
  measured_log :
    log w' = log w ++ [AppendChild (nextNode w); RemoveChild (nextNode w);
                       SetMaxDropdownWidth maxWidth];
  measured_state : state w' = setMaxDropdownWidth maxWidth (state w);
  measured_next : nextNode w' = S (nextNode w);
  measured_listeners : mousedownListeners w' = mousedownListeners w;
  measured_mounted : mounted w' = mounted w;
  measured_dropdown : dropdownRef w' = dropdownRef w
}.

(** The dropdown element exists only while the widget is open. *)
Definition coherent (w : World) : Prop :=
  dropdownRef w <> None -> isOpen (state w) = true.

(** Position [k] holds option [opt], whose value is strictly equal to the
    current value, and no position before [k] holds such an option. *)
Definition firstMatch (p : SelectProps) (k : Z) (opt : SelectOption.t) : Prop :=
  Js.at_ (elements (options p)) k = Some opt
  /\ matches (value p) opt = true
  /\ forall j o, 0 <= j < k -> Js.at_ (elements (options p)) j = Some o ->
                 matches (value p) o = false.

(** The requirement of the data model that no two options of a list carry
    the same value. *)
Definition uniqueValues (opts : list SelectOption.t) : Prop :=
  forall i j oi oj,
    Js.at_ opts i = Some oi -> Js.at_ opts j = Some oj ->
    Js.strict_equals (SelectOption.value oi) (SelectOption.value oj) = true ->
    i = j.

(** The document's listeners after an event, given those before it. *)
Definition listenersAfter (e : Event) (l : list Listener) : list Listener :=
  match e with
  | Mount _ => l ++ [HandleClickOutside]
  | Unmount => removeFirstOwn l
  | _ => l
  end.

(** How many times a log records that the cached width was recomputed. *)
Definition recomputations (l : list Call) : nat :=
  List.length (filter (fun c => match c with SetMaxDropdownWidth _ => true | _ => false end) l).

(** The width the specification describes: the largest measured label
    width, with nothing added to it. *)
Definition widestLabel (h : Host) (st : ProbeStyle) (opts : list SelectOption.t) : Z :=
  fold_left (fun acc opt => Z.max acc (offsetWidth h st (SelectOption.label opt))) opts 0.

(** What the specification says of an update that hands over a new option
    list: the cached width is recomputed exactly once, as the width of the
    widest label. *)
Definition recomputesWidestOnce (h : Host) (w : World) (p' : SelectProps) : Prop :=
  exists w' cs,
    step h (Update p') w = Returned tt w'
    /\ getComputedStyle h = Some cs
    /\ recomputations (log w') = S (recomputations (log w))
    /\ maxDropdownWidth (state w')
       = widestLabel h (probeStyle (fontFamily cs) (fontSize cs)) (elements (options p')).

(** The part of the world a measurement pass reads and writes. *)
Definition pageAndWidth (w : World) : list Call * Z * list Node * Node :=
  (log w, maxDropdownWidth (state w), bodyChildren w, nextNode w).

(** The behaviour the specification asks of a measurement the host cannot
    serve: no error, and a width that is left unset. *)
Definition failsSoft (h : Host) (p : SelectProps) (w : World) : Prop :=
  exists w', measureOptions h p w = Returned tt w'
             /\ controlWidth (render p (state w')) = Auto.

(** Runs a sequence of events, each of which must be deliverable and
    return. *)
Fixpoint deliver (h : Host) (es : list Event) (w : World) : option World :=
  match es with
  | [] => Some w
  | e :: r =>
      if enabled w e then
        match step h e w with
        | Returned _ w' => deliver h r w'
        | Thrown _ _ => None
        end
      else None
  end.

(** ** A concrete page *)

Module Example.

Definition number (z : Z) : Js.value := Js.VNumber (Js.Finite (inject_Z z)).

Definition style : ComputedStyle :=
  {| fontFamily := "monospace"; fontSize := "16px" |}.

(** A host that lays text out at eight pixels a character, inside the
    24 pixels of horizontal padding of the probe. *)
Definition host : Host :=
  {| getComputedStyle := Some style;
     offsetWidth := fun _ txt => 24 + 8 * Z.of_nat (String.length txt) |}.

(** The same host, unable to deliver computed styles. *)
Definition brokenHost : Host :=
  {| getComputedStyle := None;
     offsetWidth := offsetWidth host |}.

(** Options [0], ..., [n - 1], each labelled ["item"]. *)
Fixpoint numbered (n : nat) : list SelectOption.t :=
  match n with
  | O => []
  | S k => numbered k ++ [SelectOption.make (number (Z.of_nat k)) "item"]
  end.

Definition props (id n : nat) (v : Z) : SelectProps :=
  {| value := number v;
     options := {| identity := id; elements := numbered n |};
     placeholder := defaultPlaceholder;
     className := EmptyString |}.

Definition single : SelectProps :=
  {| value := number 1;
     options := {| identity := 1; elements := [SelectOption.make (number 1) "A"] |};
     placeholder := defaultPlaceholder;
     className := EmptyString |}.

Definition unmatched : SelectProps :=
  {| value := number 99;
     options := options single;
     placeholder := defaultPlaceholder;
     className := EmptyString |}.

Definition duplicated : SelectProps :=
  {| value := number 1;
     options := {| identity := 2;
                   elements := [SelectOption.make (number 0) "Z";
                                SelectOption.make (number 1) "A";
                                SelectOption.make (number 1) "B"] |};
     placeholder := defaultPlaceholder;
     className := EmptyString |}.

Definition page : World := initialWorld [1; 2]%nat [7]%nat.

Definition after (es : list Event) : World :=
  match deliver host es page with
  | Some w => w
  | None => page
  end.

(** Forty options, the one with value [30] selected: mounted, and then
    opened by a click on the control. *)
Definition closed : World := Eval vm_compute in after [Mount (props 1 40 30)].
Definition opened : World :=
  Eval vm_compute in after [Mount (props 1 40 30); Click TControl].

(** The list with a repeated value, mounted, and then opened. *)
Definition closedDuplicated : World := Eval vm_compute in after [Mount duplicated].
Definition openedDuplicated : World :=
  Eval vm_compute in after [Mount duplicated; Click TControl].

End Example.

(** ** Further vocabulary *)

(** The values [onChange] was called with, in order. *)
Fixpoint onChangeCalls (l : list Call) : list Js.value :=
  match l with
  | [] => []
  | OnChange v :: r => v :: onChangeCalls r
  | _ :: r => onChangeCalls r
  end.

Definition changeCalls (w : World) : list Js.value := onChangeCalls (log w).

(** The props once the parent has stored a new value. *)
Definition withValue (v : Js.value) (p : SelectProps) : SelectProps :=
  {| value := v;
     options := options p;
     placeholder := placeholder p;
     className := className p |}.

(** The nodes [createElement] will hand out are not in the page. *)
Definition fresh (w : World) : Prop :=
  Forall (fun n => (n < nextNode w)%nat) (bodyChildren w).

(** The world a computation ends in, whether it returns or throws. *)
Definition outcomeWorld {A : Type} (o : Outcome A) : World :=
  match o with
  | Returned _ w => w
  | Thrown _ w => w
  end.

(** A computation that leaves the children of the body as it found them,
    however it ends. *)
Definition tidy {A : Type} (m : M A) : Prop :=
  forall w, fresh w ->
    bodyChildren (outcomeWorld (m w)) = bodyChildren w
    /\ fresh (outcomeWorld (m w)).

(** ** The settings panel: the soft-wrap select and the font suggestions *)

Module AceSettings.

Definition softWrapOptions : list SelectOption.t :=
  [ SelectOption.make (Js.VString "off") "Off";
    SelectOption.make (Js.VString "free") "Free";
    SelectOption.make (Js.VString "printmargin") "Print Margin";
    SelectOption.make (Js.VString "true") "Wrap Enabled";
    SelectOption.make (Js.VString "false") "Wrap Disabled" ].

(** The [value] handed to the select for the stored [softWrap]: a boolean
    is shown through [String (softWrap)], a number as ["printmargin"], and
    anything else as it is. *)
Definition softWrapSelectValue (softWrap : Js.value) : Js.value :=
  match softWrap with
  | Js.VBoolean b => Js.VString (if b then "true" else "false")
  | Js.VNumber _ => Js.VString "printmargin"
  | _ => softWrap
  end.

(** The [newValue] the [onChange] of that select stores. *)
Definition softWrapNewValue (selectedValue : Js.value) : Js.value :=
  if Js.strict_equals selectedValue (Js.VString "true") then Js.VBoolean true
  else if Js.strict_equals selectedValue (Js.VString "false") then Js.VBoolean false
  else selectedValue.

(** The props of the soft-wrap select; [softWrapOptions] is memoised, so
    the identity of the array never changes. *)
Definition softWrapSelect (softWrap : Js.value) : SelectProps :=
  {| value := softWrapSelectValue softWrap;
     options := {| identity := 0; elements := softWrapOptions |};
     placeholder := defaultPlaceholder;
     className := EmptyString |}.

(** The settings the type of [softWrap] admits, as the casts of the
    handler spell it out: a boolean, a number, or one of three words. *)
Definition validSoftWrap (softWrap : Js.value) : Prop :=
  match softWrap with
  | Js.VBoolean _ => True
  | Js.VNumber _ => True
  | Js.VString s => s = "off"%string \/ s = "free"%string \/ s = "printmargin"%string
  | _ => False
  end.

(** *** Font suggestions *)

Record FontData : Type := {
  family : string;
  fullName : string;
  postscriptName : string;
  style : string
}.

Record Platform : Type := {
  isDesktopApp : bool;
  isMobileApp : bool
}.

(** What [window.queryLocalFonts] does: it may be missing from [window],
    its promise may reject, or it resolves to the local fonts. *)
Inductive LocalFontAccess : Type :=
| Missing
| Rejects
| Resolves (fonts : list FontData).

Definition getDesktopFallbackFonts : list string :=
  [ "Fira Code"; "Source Code Pro"; "JetBrains Mono"; "Cascadia Code";
    "Monaco"; "Menlo"; "Consolas"; "Courier New";
    "Microsoft YaHei"; "SimSun"; "SimHei"; "Arial"; "Times New Roman";
    "Calibri"; "Segoe UI";
    "PingFang SC"; "Helvetica Neue"; "San Francisco"; "Hiragino Sans GB";
    "Noto Sans CJK SC"; "WenQuanYi Micro Hei"; "Ubuntu"; "DejaVu Sans" ]%string.

Definition getMobileFallbackFonts : list string :=
  [ "system-ui"; "-apple-system"; "BlinkMacSystemFont"; "Roboto";
    "Helvetica Neue"; "Arial"; "Noto Sans"; "sans-serif"; "monospace" ]%string.

Definition getWebFallbackFonts : list string :=
  [ "system-ui"; "-apple-system"; "BlinkMacSystemFont"; "Segoe UI"; "Roboto";
    "Helvetica Neue"; "Arial"; "Noto Sans"; "sans-serif"; "Consolas";
    "Monaco"; "monospace" ]%string.

Definition getBasicFallbackFonts : list string :=
  [ "monospace"; "sans-serif"; "serif"; "Arial"; "Courier New" ]%string.

(** [Set.prototype.add] on a set kept in insertion order, which is the
    order [Array.from] reads it in. *)
Definition setAdd (x : string) (s : list string) : list string :=
  if existsb (String.eqb x) s then s else s ++ [x].

Definition addAll (xs : list string) (s : list string) : list string :=
  fold_left (fun acc x => setAdd x acc) xs s.

(** The families of the local fonts; a font with an empty [family] is
    skipped. *)
Definition addLocalFonts (fonts : list FontData) (s : list string) : list string :=
  fold_left
    (fun acc font =>
       match family font with
       | EmptyString => acc
       | _ => setAdd (family font) acc
       end)
    fonts s.

Definition fallbackFonts (pf : Platform) : list string :=
  if isDesktopApp pf then getDesktopFallbackFonts
  else if isMobileApp pf then getMobileFallbackFonts
  else getWebFallbackFonts.

(** [uniqueFonts] at the end of [loadSystemFonts]: the local fonts when
    the desktop application can query them (a rejection is caught and
    logged), then the fallback fonts of the platform with the basic ones,
    then the fonts of the current settings. *)
Definition uniqueFonts (pf : Platform) (api : LocalFontAccess)
    (fontFamily : list string) : list string :=
  let local :=
    if isDesktopApp pf then
      match api with
      | Resolves fonts => addLocalFonts fonts []
      | Rejects => []
      | Missing => []
      end
    else [] in
  let withFallback := addAll (fallbackFonts pf ++ getBasicFallbackFonts) local in
  addAll fontFamily withFallback.

(** [Array.prototype.sort] with the comparator [(a, b) => compare a b]:
    the sort is stable, so for a comparator that orders its arguments
    consistently, as [localeCompare] does, it returns what a stable
    insertion sort returns. *)
Fixpoint insertSorted (compare : string -> string -> Z) (x : string)
    (l : list string) : list string :=
  match l with
  | [] => [x]
  | y :: r =>
      if 0 <? compare x y then y :: insertSorted compare x r else x :: y :: r
  end.

Definition sort (compare : string -> string -> Z) (l : list string) : list string :=
  fold_right (insertSorted compare) [] l.

(** The list [setSystemFonts] receives. *)
Definition sortedFonts (localeCompare : string -> string -> Z) (pf : Platform)
    (api : LocalFontAccess) (fontFamily : list string) : list string :=
  sort localeCompare (uniqueFonts pf api fontFamily).

End AceSettings.

(** ** The settings tab: one React root per open tab *)

Module SettingTab.

(** What the tab does to its container and to React. *)
Inductive Op : Type :=
| Empty
| CreateRoot (r : nat)
| Render (r : nat)
| UnmountRoot (r : nat).

(** The [root] field of the tab, the roots [createRoot] has handed out so
    far, and the calls made. *)
Record Tab : Type := {
  root : option nat;
  created : nat;
  calls : list Op
}.

Definition initial : Tab := {| root := None; created := 0; calls := [] |}.

Definition call (o : Op) (t : Tab) : Tab :=
  {| root := root t; created := created t; calls := calls t ++ [o] |}.

Definition renderContent (t : Tab) : Tab :=
  match root t with
  | Some r => call (Render r) t
  | None => t
  end.

Definition display (t : Tab) : Tab :=
  let t := call Empty t in
  let t :=
    match root t with
    | None =>
        {| root := Some (created t);
           created := S (created t);
           calls := calls t ++ [CreateRoot (created t)] |}
    | Some _ => t
    end in
  renderContent t.

Definition hide (t : Tab) : Tab :=
  let t :=
    match root t with
    | Some r =>
        {| root := None; created := created t; calls := calls t ++ [UnmountRoot r] |}
    | None => t
    end in
  call Empty t.

Definition closeSettingsTab (t : Tab) : Tab := hide t.

Inductive Method : Type := Display | Hide | CloseSettingsTab.

Definition invoke (m : Method) (t : Tab) : Tab :=
  match m with
  | Display => display t
  | Hide => hide t
  | CloseSettingsTab => closeSettingsTab t
  end.

Definition run (ms : list Method) : Tab :=
  fold_left (fun t m => invoke m t) ms initial.

(** The roots a log creates and unmounts, in order. *)
Fixpoint createdRoots (l : list Op) : list nat :=
  match l with
  | [] => []
  | CreateRoot r :: rest => r :: createdRoots rest
  | _ :: rest => createdRoots rest
  end.

Fixpoint unmountedRoots (l : list Op) : list nat :=
  match l with
  | [] => []
  | UnmountRoot r :: rest => r :: unmountedRoots rest
  | _ :: rest => unmountedRoots rest
  end.

End SettingTab.

(** The roots created so far are [0], [1], ... in order, and they are the
    unmounted ones followed by the one the tab holds, if it holds one. *)
Definition tabInvariant (t : SettingTab.Tab) : Prop :=
  SettingTab.createdRoots (SettingTab.calls t) = seq 0 (SettingTab.created t)
  /\ SettingTab.createdRoots (SettingTab.calls t)
     = SettingTab.unmountedRoots (SettingTab.calls t)
       ++ match SettingTab.root t with Some r => [r] | None => [] end.

(** ** Further concrete worlds *)

Module Scenario.

(** Forty options and a value that none of them carries: mounted, opened,
    scrolled to offset 1234.5, and closed again. *)
Definition scrolledThenClosed : World :=
  Eval vm_compute in
    Example.after [Mount (Example.props 1 40 99); Click TControl;
                   Scroll (12345 # 10); Click TControl].

(** The same world once the parent has handed over a list of three
    options. *)
Definition listReplaced : World :=
  Eval vm_compute in
    Example.after [Mount (Example.props 1 40 99); Click TControl;
                   Scroll (12345 # 10); Click TControl;
                   Update (Example.props 2 3 99)].

(** The opened example, scrolled to offset 1234.5. *)
Definition scrolled : World :=
  Eval vm_compute in
    Example.after [Mount (Example.props 1 40 30); Click TControl;
                   Scroll (12345 # 10)].

End Scenario.

(** * Properties *)

(** ** Arrays *)

Section ArrayFacts.
Context {A : Type}.

Lemma relativeIndex_nonneg (len i : Z) :
  0 <= i -> Js.relativeIndex len i = Z.min i len.
Proof.
  intros Hi. unfold Js.relativeIndex.
  destruct (i <? 0) eqn:E; [apply Z.ltb_lt in E; lia | reflexivity].
Qed.

(** An element of a slice that starts at a non-negative index is the
    element of the array that many places further. *)
Lemma slice_nth_error (l : list A) (b e : Z) (j : nat) (x : A) :
  0 <= b ->
  nth_error (Js.slice l b e) j = Some x ->
  nth_error l (Z.to_nat b + j) = Some x.
Proof.
  intros Hb. unfold Js.slice. rewrite (relativeIndex_nonneg _ b Hb).
  rewrite nth_error_firstn.
  destruct (Nat.ltb j _); [ | discriminate].
  rewrite nth_error_skipn. intros H.
  destruct (Z.le_gt_cases b (Z.of_nat (List.length l))) as [Hle | Hgt].
  - rewrite Z.min_l in H by exact Hle. exact H.
  - rewrite Z.min_r in H by lia. rewrite Nat2Z.id in H.
    assert (Hn : nth_error l (List.length l + j) = None)
      by (apply nth_error_None; lia).
    rewrite Hn in H. discriminate.
Qed.

Lemma slice_length (l : list A) (b e : Z) :
  0 <= b -> 0 <= e ->
  Z.of_nat (List.length (Js.slice l b e))
  = Z.max 0 (Z.min e (Z.of_nat (List.length l)) - Z.min b (Z.of_nat (List.length l))).
Proof.
  intros Hb He. unfold Js.slice.
  rewrite (relativeIndex_nonneg _ b Hb), (relativeIndex_nonneg _ e He).
  rewrite length_firstn, length_skipn. lia.
Qed.

Lemma slice_nil (b e : Z) : Js.slice (@nil A) b e = [].
Proof.
  unfold Js.slice. rewrite skipn_nil. apply firstn_nil.
Qed.

Lemma mapiFrom_length {B : Type} (f : A -> Z -> B) (l : list A) (i : Z) :
  List.length (Js.mapiFrom f l i) = List.length l.
Proof.
  revert i. induction l as [ | x r IH]; intros i; simpl; [ | rewrite IH]; reflexivity.
Qed.

Lemma mapiFrom_nth_error {B : Type} (f : A -> Z -> B) (l : list A) (i : Z) (j : nat) :
  nth_error (Js.mapiFrom f l i) j
  = option_map (fun x => f x (i + Z.of_nat j)) (nth_error l j).
Proof.
  revert i j. induction l as [ | x r IH]; intros i j.
  - destruct j; reflexivity.
  - destruct j as [ | j]; simpl.
    + rewrite Z.add_0_r. reflexivity.
    + rewrite IH. replace (i + 1 + Z.of_nat j) with (i + Z.pos (Pos.of_succ_nat j)) by lia.
      reflexivity.
Qed.

Lemma find_some_first (f : A -> bool) (l : list A) (x : A) :
  Js.find f l = Some x ->
  exists i, nth_error l i = Some x /\ f x = true
            /\ forall j y, (j < i)%nat -> nth_error l j = Some y -> f y = false.
Proof.
  induction l as [ | a r IH]; simpl; [discriminate | ].
  destruct (f a) eqn:Fa.
  - intros H. injection H as ->. exists 0%nat. repeat split; auto.
    intros j y Hj. lia.
  - intros H. destruct (IH H) as (i & Hi & Hx & Hbefore).
    exists (S i). repeat split; auto.
    intros [ | j] y Hj Hy; simpl in Hy.
    + injection Hy as <-. exact Fa.
    + apply (Hbefore j); [lia | exact Hy].
Qed.

Lemma find_none (f : A -> bool) (l : list A) :
  Js.find f l = None <-> forall x, In x l -> f x = false.
Proof.
  induction l as [ | a r IH]; simpl.
  - split; [intros _ x [] | reflexivity].
  - destruct (f a) eqn:Fa.
    + split; [discriminate | ]. intros H. specialize (H a (or_introl eq_refl)). congruence.
    + rewrite IH. split.
      * intros H x [<- | Hx]; auto.
      * intros H x Hx. apply H. right. exact Hx.
Qed.

(** [findIndex] and [find] agree: one gives the position of what the
    other returns, and [-1] exactly when there is nothing to return. *)
Lemma findIndexFrom_find (f : A -> bool) (l : list A) (i : Z) :
  match Js.find f l with
  | Some x =>
      i <= Js.findIndexFrom f l i
      /\ nth_error l (Z.to_nat (Js.findIndexFrom f l i - i)) = Some x
  | None => Js.findIndexFrom f l i = -1
  end.
Proof.
  revert i. induction l as [ | a r IH]; intros i; simpl; [reflexivity | ].
  destruct (f a) eqn:Fa.
  - rewrite Z.sub_diag. split; [lia | reflexivity].
  - specialize (IH (i + 1)). destruct (Js.find f r) as [x | ]; [ | exact IH].
    destruct IH as [Hle Hnth]. split; [lia | ].
    replace (Z.to_nat (Js.findIndexFrom f r (i + 1) - i))
      with (S (Z.to_nat (Js.findIndexFrom f r (i + 1) - (i + 1)))) by lia.
    exact Hnth.
Qed.

Lemma findIndex_find_some (f : A -> bool) (l : list A) (x : A) :
  Js.find f l = Some x ->
  0 <= Js.findIndex f l /\ Js.at_ l (Js.findIndex f l) = Some x.
Proof.
  intros H. pose proof (findIndexFrom_find f l 0) as F. rewrite H in F.
  fold (Js.findIndex f l) in F. destruct F as [Hle Hnth].
  split; [exact Hle | ]. unfold Js.at_.
  destruct (Js.findIndex f l <? 0) eqn:E; [apply Z.ltb_lt in E; lia | ].
  rewrite Z.sub_0_r in Hnth. exact Hnth.
Qed.

Lemma findIndex_find_none (f : A -> bool) (l : list A) :
  Js.find f l = None -> Js.findIndex f l = -1.
Proof.
  intros H. pose proof (findIndexFrom_find f l 0) as F. rewrite H in F. exact F.
Qed.

Lemma at_nth_error (l : list A) (i : nat) :
  Js.at_ l (Z.of_nat i) = nth_error l i.
Proof.
  unfold Js.at_. destruct (Z.of_nat i <? 0) eqn:E; [apply Z.ltb_lt in E; lia | ].
  rewrite Nat2Z.id. reflexivity.
Qed.
End ArrayFacts.

(** ** Scroll offsets *)

Lemma floorDiv_range (x : Q) (n : Z) :
  (0 <= x)%Q -> (x <= inject_Z (n * itemHeight))%Q ->
  0 <= Js.floorDiv x itemHeight <= n.
Proof.
  intros H0 Hn. unfold Js.floorDiv.
  assert (Hpos : (0 < inject_Z itemHeight)%Q) by reflexivity.
  split.
  - change 0 with (Qfloor (inject_Z 0)). apply Qfloor_resp_le.
    apply Qle_shift_div_l; [exact Hpos | ].
    rewrite Qmult_0_l. exact H0.
  - rewrite <- (Qfloor_Z n). apply Qfloor_resp_le.
    apply Qle_shift_div_r; [exact Hpos | ].
    rewrite <- inject_Z_mult. exact Hn.
Qed.

Lemma inScrollRange_bounds (p : SelectProps) (x : Q) :
  inScrollRange p x = true ->
  0 <= Js.floorDiv x itemHeight <= optionCount p.
Proof.
  unfold inScrollRange. intros H. apply andb_prop in H as [H0 H1].
  apply Qle_bool_iff in H0, H1. apply floorDiv_range; assumption.
Qed.

(** ** The rendered window *)

Lemma visibleOptionsStartIndex_nonneg (s : State) : 0 <= visibleOptionsStartIndex s.
Proof. unfold visibleOptionsStartIndex. lia. Qed.

Lemma renderedRows_nth_error (p : SelectProps) (s : State) (j : nat) (r : OptionRow) :
  nth_error (renderedRows p s) j = Some r ->
  showsOption p (visibleOptionsStartIndex s + Z.of_nat j) r.
Proof.
  unfold renderedRows, Js.mapi. rewrite mapiFrom_nth_error.
  destruct (nth_error (visibleOptions p s) j) as [opt | ] eqn:E; [ | discriminate].
  simpl. intros H. injection H as <-.
  apply slice_nth_error in E; [ | apply visibleOptionsStartIndex_nonneg].
  pose proof (visibleOptionsStartIndex_nonneg s) as Hlo.
  exists opt. split.
  - replace (visibleOptionsStartIndex s + Z.of_nat j)
      with (Z.of_nat (Z.to_nat (visibleOptionsStartIndex s) + j)) by lia.
    rewrite at_nth_error. exact E.
  - unfold renderOption, visibleOptionsStartIndex. simpl. repeat split; reflexivity.
Qed.

Lemma renderedRows_length (p : SelectProps) (s : State) :
  - (visibleItems + bufferItems) <= visibleStartIndex s ->
  Z.of_nat (List.length (renderedRows p s))
  = Z.max 0 (visibleOptionsEndIndex p s
             - Z.min (visibleOptionsStartIndex s) (optionCount p)).
Proof.
  intros Hs. unfold renderedRows, Js.mapi. rewrite mapiFrom_length.
  unfold visibleOptions. rewrite slice_length.
  - fold (optionCount p). unfold visibleOptionsEndIndex. lia.
  - apply visibleOptionsStartIndex_nonneg.
  - unfold visibleOptionsEndIndex, optionCount. lia.
Qed.

Lemma renderedRows_bounded (p : SelectProps) (s : State) :
  - (visibleItems + bufferItems) <= visibleStartIndex s ->
  Z.of_nat (List.length (renderedRows p s)) <= visibleItems + 2 * bufferItems.
Proof.
  intros Hs. rewrite renderedRows_length by exact Hs.
  unfold visibleOptionsEndIndex, visibleOptionsStartIndex, visibleItems, bufferItems in *.
  lia.
Qed.

Lemma renderedRows_isWindow (p : SelectProps) (s : State) :
  0 <= visibleStartIndex s <= optionCount p ->
  isWindow p (renderedRows p s) (visibleOptionsStartIndex s) (visibleOptionsEndIndex p s).
Proof.
  intros Hs. split.
  - rewrite renderedRows_length by (unfold visibleItems, bufferItems; lia).
    unfold visibleOptionsEndIndex, visibleOptionsStartIndex, visibleItems, bufferItems.
    lia.
  - intros j r. apply renderedRows_nth_error.
Qed.

Lemma isWindow_indices (p : SelectProps) (rows : list OptionRow) (lo hi i : Z) :
  isWindow p rows lo hi ->
  (exists r, In r rows /\ showsOption p i r) <-> lo <= i < hi.
Proof.
  intros [Hlen Hrows]. split.
  - intros (r & Hin & Hshow). apply In_nth_error in Hin as [j Hj].
    assert (Hlt : (j < List.length rows)%nat) by (apply nth_error_Some; congruence).
    destruct (Hrows j r Hj) as (opt' & _ & Hidx & _).
    destruct Hshow as (opt & _ & Hidx' & _). lia.
  - intros Hi.
    destruct (nth_error rows (Z.to_nat (i - lo))) as [r | ] eqn:E.
    + exists r. split; [eapply nth_error_In; exact E | ].
      apply Hrows in E. replace (lo + Z.of_nat (Z.to_nat (i - lo))) with i in E by lia.
      exact E.
    + apply nth_error_None in E. lia.
Qed.

(** ** Running the handlers *)

Lemma eqb_refl_bool (b : bool) : Bool.eqb b b = true.
Proof. destruct b; reflexivity. Qed.

Lemma scroll_step (h : Host) (w : World) (p : SelectProps) (d scrollTop : Q) :
  mounted w = Some p ->
  dropdownRef w = Some d ->
  isOpen (state w) = true ->
  step h (Scroll scrollTop) w
  = Returned tt (withState (setVisibleStartIndex (Js.floorDiv scrollTop itemHeight))
                   (withDropdownRef (Some scrollTop) w)).
Proof.
  intros Hm Hd Ho. unfold step, scroll, bind, get. rewrite Hd.
  unfold modify, handleScroll, bind, get. simpl.
  unfold setState, bind, get, modify. simpl. rewrite Hm.
  unfold commit, bind, get. simpl. rewrite Hm.
  rewrite Ho, Z.eqb_refl, Nat.eqb_refl. simpl.
  unfold attachDropdownRef, modify, ret. simpl. rewrite Ho. reflexivity.
Qed.

(** ** Reasoning about computations *)

Section Rules.
Context {A B : Type}.

Lemma hoare_bind (P : World -> Prop) (R : A -> World -> Prop)
    (Q : B -> World -> Prop) (m : M A) (k : A -> M B) :
  hoare P m R -> (forall a, hoare (R a) (k a) Q) -> hoare P (bind m k) Q.
Proof.
  intros Hm Hk w HP. unfold bind. specialize (Hm w HP).
  destruct (m w) as [a w' | e w']; [ | exact I].
  exact (Hk a w' Hm).
Qed.

Lemma preserves_bind (P : World -> Prop) (m : M A) (k : A -> M B) :
  preserves P m -> (forall a, preserves P (k a)) -> preserves P (bind m k).
Proof. intros Hm Hk. exact (hoare_bind P _ _ m k Hm Hk). Qed.

Lemma preserves_get_bind (P : World -> Prop) (k : World -> M B) :
  (forall w0, P w0 -> preserves P (k w0)) -> preserves P (bind get k).
Proof.
  intros Hk w HP. unfold bind, get. exact (Hk w HP w HP).
Qed.

Lemma keeps_bind {C : Type} (proj : World -> C) (m : M A) (k : A -> M B) :
  keeps proj m -> (forall a, keeps proj (k a)) -> keeps proj (bind m k).
Proof.
  intros Hm Hk w. unfold bind. specialize (Hm w).
  destruct (m w) as [a w' | e w']; [ | exact I].
  specialize (Hk a w'). destruct (k a w'); [congruence | exact I].
Qed.
End Rules.

Lemma preserves_forEach {A : Type} (P : World -> Prop) (l : list A) (f : A -> M unit) :
  (forall x, preserves P (f x)) -> preserves P (forEach l f).
Proof.
  intros Hf. induction l as [ | x r IH]; simpl.
  - intros w HP. exact HP.
  - apply preserves_bind; [apply Hf | intros _; exact IH].
Qed.

Lemma keeps_forEach {A C : Type} (proj : World -> C) (l : list A) (f : A -> M unit) :
  (forall x, keeps proj (f x)) -> keeps proj (forEach l f).
Proof.
  intros Hf. induction l as [ | x r IH]; simpl.
  - intros w. reflexivity.
  - apply keeps_bind; [apply Hf | intros _; exact IH].
Qed.

Lemma preserves_ret {A : Type} (P : World -> Prop) (a : A) : preserves P (ret a).
Proof. intros w HP. exact HP. Qed.

Lemma preserves_modify (P : World -> Prop) (f : World -> World) :
  (forall w, P w -> P (f w)) -> preserves P (modify f).
Proof. intros Hf w HP. exact (Hf w HP). Qed.

Lemma keeps_ret {A C : Type} (proj : World -> C) (a : A) : keeps proj (ret a).
Proof. intros w. reflexivity. Qed.

Lemma keeps_throw {A C : Type} (proj : World -> C) (e : Exception) :
  keeps proj (@throw A e).
Proof. intros w. exact I. Qed.

Lemma keeps_modify {C : Type} (proj : World -> C) (f : World -> World) :
  (forall w, proj (f w) = proj w) -> keeps proj (modify f).
Proof. intros Hf w. apply Hf. Qed.

Lemma keeps_get_bind {B C : Type} (proj : World -> C) (k : World -> M B) :
  (forall w0, keeps proj (k w0)) -> keeps proj (bind get k).
Proof. intros Hk. apply keeps_bind; [intros w; reflexivity | exact Hk]. Qed.

(** Splits a computation along its binds and case distinctions, leaving
    the [modify] steps to be checked on the fields they touch. *)
Ltac keeps_steps :=
  repeat lazymatch goal with
    | |- keeps _ (ret _) => apply keeps_ret
    | |- keeps _ (throw _) => apply keeps_throw
    | |- keeps _ (bind get _) => apply keeps_get_bind; intros ?
    | |- keeps _ (bind _ _) => apply keeps_bind; [ | intros ? ]
    | |- keeps _ (modify _) => apply keeps_modify; intros ?; simpl
    | |- keeps _ (match ?x with _ => _ end) => destruct x
    end.

(** ** The measurement pass *)

Lemma without_fresh (n : Node) (l : list Node) :
  Forall (fun m => (m < n)%nat) l -> without n l = l.
Proof.
  induction 1 as [ | m l Hm _ IH]; simpl; [reflexivity | ].
  destruct (Nat.eqb_spec m n) as [-> | _]; [lia | ].
  simpl. rewrite IH. reflexivity.
Qed.

Lemma without_last (n : Node) (l : list Node) :
  without n (l ++ [n]) = without n l.
Proof.
  unfold without. rewrite filter_app. simpl.
  rewrite Nat.eqb_refl. simpl. apply app_nil_r.
Qed.

Lemma existsb_last (n : Node) (l : list Node) :
  existsb (Nat.eqb n) (l ++ [n]) = true.
Proof.
  rewrite existsb_app. simpl. rewrite Nat.eqb_refl.
  rewrite orb_true_r. reflexivity.
Qed.

Lemma measureOptions_pass (h : Host) (p : SelectProps) (cs : ComputedStyle) (w : World) :
  getComputedStyle h = Some cs ->
  0 < optionCount p ->
  Forall (fun n => (n < nextNode w)%nat) (bodyChildren w) ->
  exists w',
    measureOptions h p w = Returned tt w'
    /\ measured (measureLabels h (probeStyle (fontFamily cs) (fontSize cs))
                   (elements (options p))) w w'.
Proof.
  intros Hcs Hlen Hfresh. unfold measureOptions.
  apply Z.ltb_lt in Hlen. rewrite Hlen.
  unfold bind, createElement, bind, get, modify, ret, readComputedStyle.
  rewrite Hcs. unfold ret, appendChild, modify, removeChild, bind, get. simpl.
  rewrite existsb_last. unfold modify.
  eexists. split; [reflexivity | ].
  split; simpl; try reflexivity.
  - rewrite without_last. rewrite !(without_fresh _ _ Hfresh). reflexivity.
  - rewrite <- !app_assoc. reflexivity.
Qed.

Lemma measureOptions_throws (h : Host) (p : SelectProps) (w : World) :
  getComputedStyle h = None ->
  0 < optionCount p ->
  measureOptions h p w = Thrown TypeError (withNextNode (S (nextNode w)) w).
Proof.
  intros Hcs Hlen. unfold measureOptions.
  apply Z.ltb_lt in Hlen. rewrite Hlen.
  unfold bind, createElement, bind, get, modify, ret, readComputedStyle.
  rewrite Hcs. reflexivity.
Qed.

Lemma measureOptions_empty (h : Host) (p : SelectProps) (w : World) :
  optionCount p = 0 -> measureOptions h p w = Returned tt w.
Proof.
  intros Hlen. unfold measureOptions. rewrite Hlen. reflexivity.
Qed.

(** ** The invariant *)

Lemma Inv_withState (f : State -> State) (w : World) :
  Inv w -> 0 <= visibleStartIndex (f (state w)) -> Inv (withState f w).
Proof. intros [H1 H2 H3] Hf. split; simpl; assumption. Qed.

Lemma Inv_withDropdownRef (d : option Q) (w : World) :
  Inv w -> Inv (withDropdownRef d w).
Proof. intros [H1 H2 H3]. split; simpl; assumption. Qed.

Lemma Inv_record (c : Call) (w : World) : Inv w -> Inv (record c w).
Proof. intros [H1 H2 H3]. split; simpl; assumption. Qed.

Lemma attachDropdownRef_preserves : preserves Inv attachDropdownRef.
Proof.
  apply preserves_modify. intros w HI.
  destruct (isOpen (state w)); [destruct (dropdownRef w) | ];
    auto using Inv_withDropdownRef.
Qed.

Lemma scrollToSelected_preserves (p : SelectProps) :
  preserves Inv (scrollToSelected p).
Proof.
  unfold scrollToSelected. apply preserves_get_bind. intros w0 _.
  destruct (isOpen (state w0)); [ | apply preserves_ret].
  destruct (dropdownRef w0); [ | apply preserves_ret].
  destruct (0 <=? selectedIndex p); [ | apply preserves_ret].
  apply preserves_bind; [ | intros _ ]; apply preserves_modify; intros w HI.
  - apply Inv_withDropdownRef. exact HI.
  - apply Inv_withState; [exact HI | simpl; lia].
Qed.

Lemma measureOptions_preserves (h : Host) (p : SelectProps) :
  preserves Inv (measureOptions h p).
Proof.
  intros w HI.
  destruct (Z.ltb_spec 0 (optionCount p)) as [Hlen | Hlen].
  - destruct (getComputedStyle h) as [cs | ] eqn:Hcs.
    + destruct (measureOptions_pass h p cs w Hcs Hlen (inv_nodes w HI))
        as (w' & -> & Hm).
      destruct HI as [H1 H2 H3], Hm as [Mb Ml Ms Mn Mli Mm Md].
      split.
      * rewrite Ms. exact H1.
      * rewrite Mb, Mn. eapply Forall_impl; [ | exact H2]. simpl. intros a Ha. lia.
      * unfold ownListeners. rewrite Mli, Mm. exact H3.
    + rewrite (measureOptions_throws h p w Hcs Hlen). exact I.
  - unfold measureOptions. apply Z.ltb_ge in Hlen. rewrite Hlen. exact HI.
Qed.

Lemma commit_preserves (h : Host) (previousProps : SelectProps) (previousState : State) :
  preserves Inv (commit h previousProps previousState).
Proof.
  unfold commit. apply preserves_get_bind. intros w0 _.
  destruct (mounted w0) as [p | ]; [ | apply preserves_ret].
  apply preserves_bind; [apply attachDropdownRef_preserves | intros _].
  apply preserves_bind; [ | intros _].
  - destruct (_ && _); [apply preserves_ret | apply scrollToSelected_preserves].
  - destruct (Nat.eqb _ _); [apply preserves_ret | apply measureOptions_preserves].
Qed.

Lemma setState_preserves (h : Host) (f : State -> State) :
  (forall s, 0 <= visibleStartIndex s -> 0 <= visibleStartIndex (f s)) ->
  preserves Inv (setState h f).
Proof.
  intros Hf. unfold setState. apply preserves_get_bind. intros w0 _.
  destruct (mounted w0) as [p | ]; [ | apply preserves_ret].
  apply preserves_bind; [ | intros _; apply commit_preserves].
  apply preserves_modify. intros w HI.
  apply Inv_withState; [exact HI | apply Hf, (inv_start w HI)].
Qed.

Lemma ownListeners_added (l : list Listener) :
  List.length (filter isOwnListener (l ++ [HandleClickOutside]))
  = S (List.length (filter isOwnListener l)).
Proof.
  rewrite filter_app, length_app. simpl. lia.
Qed.

Lemma ownListeners_removed (l : list Listener) :
  List.length (filter isOwnListener (removeFirstOwn l))
  = Nat.pred (List.length (filter isOwnListener l)).
Proof.
  induction l as [ | x r IH]; simpl; [reflexivity | ].
  destruct (isOwnListener x) eqn:E; simpl; [reflexivity | ].
  rewrite E. exact IH.
Qed.

Lemma ownListeners_foreign (ids : list nat) :
  filter isOwnListener (map Foreign ids) = [].
Proof.
  induction ids as [ | i r IH]; simpl; [reflexivity | exact IH].
Qed.

Lemma mount_measure (h : Host) (p : SelectProps) (w : World) :
  mount h p w
  = measureOptions h p
      (withListeners (fun l => l ++ [HandleClickOutside])
         (withDropdownRef None
            (withDropdownRef None
               (withState (fun _ => initialState) (withMounted (Some p) w))))).
Proof. reflexivity. Qed.

Lemma mount_preserves (h : Host) (p : SelectProps) :
  hoare (fun w => Inv w /\ mounted w = None) (mount h p) (fun _ => Inv).
Proof.
  intros w [[H1 H2 H3] Hm]. rewrite mount_measure.
  apply measureOptions_preserves. split; simpl.
  - lia.
  - exact H2.
  - unfold ownListeners in *. simpl. rewrite ownListeners_added, H3, Hm. reflexivity.
Qed.

Lemma update_preserves (h : Host) (p : SelectProps) : preserves Inv (update h p).
Proof.
  intros w HI. unfold update, bind, get.
  destruct (mounted w) as [p0 | ] eqn:Hm; [ | exact HI].
  unfold modify. apply commit_preserves.
  destruct HI as [H1 H2 H3]. split; simpl; try assumption.
  unfold ownListeners in *. simpl. rewrite H3, Hm. reflexivity.
Qed.

Lemma unmount_preserves : preserves Inv unmount.
Proof.
  intros w HI. unfold unmount, bind, get.
  destruct (mounted w) as [p0 | ] eqn:Hm; [ | exact HI].
  unfold removeClickOutsideListener, modify.
  destruct HI as [H1 H2 H3]. split; simpl; try assumption.
  unfold ownListeners in *. simpl. rewrite ownListeners_removed, H3, Hm. reflexivity.
Qed.

Lemma handleClickOutside_preserves (h : Host) (t : Target) :
  preserves Inv (handleClickOutside h t).
Proof.
  unfold handleClickOutside. apply preserves_get_bind. intros w0 _.
  destruct (mounted w0); [ | apply preserves_ret].
  destruct (negb (contains t)); [ | apply preserves_ret].
  apply setState_preserves. intros st Hst. exact Hst.
Qed.

Lemma dispatchMouseDown_preserves (h : Host) (t : Target) :
  preserves Inv (dispatchMouseDown h t).
Proof.
  unfold dispatchMouseDown. apply preserves_get_bind. intros w0 _.
  apply preserves_forEach. intros [ | id].
  - apply handleClickOutside_preserves.
  - apply preserves_ret.
Qed.

Lemma click_preserves (h : Host) (t : Target) : preserves Inv (click h t).
Proof.
  unfold click. apply preserves_get_bind. intros w0 _.
  destruct t as [ | | | index]; try apply preserves_ret.
  - apply setState_preserves. intros st Hst. exact Hst.
  - destruct (rowAt w0 index); [ | apply preserves_ret].
    apply preserves_bind; [ | intros _].
    + apply preserves_modify. intros w. apply Inv_record.
    + apply setState_preserves. intros st Hst. exact Hst.
Qed.

Lemma scroll_preserves (h : Host) (scrollTop : Q) :
  0 <= Js.floorDiv scrollTop itemHeight ->
  preserves Inv (scroll h scrollTop).
Proof.
  intros Hx w HI. unfold scroll, bind, get.
  destruct (dropdownRef w) as [d | ]; [ | exact HI].
  unfold modify, handleScroll, bind, get. simpl.
  apply setState_preserves.
  - intros st _. exact Hx.
  - apply Inv_withDropdownRef. exact HI.
Qed.

Lemma initialWorld_Inv (body : list Node) (foreign : list nat) :
  Inv (initialWorld body foreign).
Proof.
  split; simpl.
  - lia.
  - assert (H : Forall (fun k => (k <= list_max body)%nat) body)
      by (apply list_max_le; lia).
    eapply Forall_impl; [ | exact H]. simpl. intros a Ha. lia.
  - unfold ownListeners. simpl. rewrite ownListeners_foreign. reflexivity.
Qed.

Lemma step_preserves (h : Host) (e : Event) (w w' : World) :
  Inv w -> enabled w e = true -> step h e w = Returned tt w' -> Inv w'.
Proof.
  intros HI He Hs.
  assert (G : preserves Inv (step h e) \/ hoare (fun w => Inv w /\ mounted w = None)
                                           (step h e) (fun _ => Inv)
                                         /\ mounted w = None).
  { destruct e as [p | p | | t | t | x]; simpl in *.
    - right. split; [apply mount_preserves | ]. destruct (mounted w); [discriminate | reflexivity].
    - left. apply update_preserves.
    - left. apply unmount_preserves.
    - left. apply dispatchMouseDown_preserves.
    - left. apply click_preserves.
    - left. destruct (mounted w) as [p | ]; [ | discriminate].
      destruct (dropdownRef w); [ | discriminate].
      apply scroll_preserves. apply (inScrollRange_bounds p x He). }
  destruct G as [G | [G Hm]].
  - specialize (G w HI). rewrite Hs in G. exact G.
  - specialize (G w (conj HI Hm)). rewrite Hs in G. exact G.
Qed.

Lemma reachable_Inv (h : Host) (w : World) : reachable h w -> Inv w.
Proof.
  induction 1 as [body foreign | w w' e _ IH He Hs].
  - apply initialWorld_Inv.
  - exact (step_preserves h e w w' IH He Hs).
Qed.

Lemma deliver_reachable (h : Host) (es : list Event) (w w' : World) :
  reachable h w -> deliver h es w = Some w' -> reachable h w'.
Proof.
  revert w. induction es as [ | e r IH]; intros w Hw; simpl.
  - intros H. injection H as <-. exact Hw.
  - destruct (enabled w e) eqn:He; [ | discriminate].
    destruct (step h e w) as [[] w1 | ] eqn:Hs; [ | discriminate].
    apply IH. exact (reachable_step h w w1 e Hw He Hs).
Qed.

Lemma rowsOnScreen_open (w : World) (p : SelectProps) :
  mounted w = Some p -> isOpen (state w) = true ->
  rowsOnScreen w = renderedRows p (state w).
Proof.
  intros Hm Ho. unfold rowsOnScreen, view. rewrite Hm. simpl. rewrite Ho. reflexivity.
Qed.

Lemma rowsOnScreen_closed (w : World) :
  isOpen (state w) = false -> rowsOnScreen w = [].
Proof.
  intros Ho. unfold rowsOnScreen, view. destruct (mounted w); [ | reflexivity].
  simpl. rewrite Ho. reflexivity.
Qed.

(** ** The window after a scroll *)

(** C1.  When the scroll handler runs at a scroll offset between [0] and
    [totalHeight], it sets the start index to [floor (scrollTop / itemHeight)];
    the rows then on screen are exactly the options at the positions from
    [max 0 (start - bufferItems)] up to, and excluding,
    [min (start + visibleItems + bufferItems) optionCount], in order, each
    placed at [top = position * itemHeight]; and the option at position
    [start] is among them whenever [start] is below [optionCount]. *)
Theorem scroll_renders_window (h : Host) (w : World) (p : SelectProps)
    (d scrollTop : Q) :
  mounted w = Some p ->
  dropdownRef w = Some d ->
  isOpen (state w) = true ->
  inScrollRange p scrollTop = true ->
  let start := Js.floorDiv scrollTop itemHeight in
  let lo := Z.max 0 (start - bufferItems) in
  let hi := Z.min (start + visibleItems + bufferItems) (optionCount p) in
  exists w',
    step h (Scroll scrollTop) w = Returned tt w'
    /\ visibleStartIndex (state w') = start
    /\ isWindow p (rowsOnScreen w') lo hi
    /\ (forall i, (exists r, In r (rowsOnScreen w') /\ showsOption p i r)
                  <-> lo <= i < hi)
    /\ (start < optionCount p ->
        exists r, In r (rowsOnScreen w') /\ showsOption p start r).
Proof.
  intros Hm Hd Ho Hrange start lo hi.
  pose proof (inScrollRange_bounds p scrollTop Hrange) as Hstart.
  fold start in Hstart.
  eexists. split; [apply (scroll_step h w p d scrollTop Hm Hd Ho) | ].
  set (w' := withState _ _).
  assert (Hrows : rowsOnScreen w' = renderedRows p (state w')).
  { apply rowsOnScreen_open; [exact Hm | exact Ho]. }
  assert (Hwin : isWindow p (rowsOnScreen w') lo hi).
  { rewrite Hrows. apply (renderedRows_isWindow p (state w')). exact Hstart. }
  split; [reflexivity | ]. split; [exact Hwin | ]. split.
  - intros i. apply isWindow_indices. exact Hwin.
  - intros Hlt. apply (isWindow_indices p _ lo hi start Hwin).
    unfold lo, hi, visibleItems, bufferItems. lia.
Qed.

Lemma scroll_renders_window_witness :
  exists w',
    step Example.host (Scroll (12345 # 10)) Example.opened = Returned tt w'
    /\ visibleStartIndex (state w') = 34
    /\ isWindow (Example.props 1 40 30) (rowsOnScreen w') 29 40
    /\ (forall i, (exists r, In r (rowsOnScreen w')
                             /\ showsOption (Example.props 1 40 30) i r)
                  <-> 29 <= i < 40)
    /\ (34 < 40 ->
        exists r, In r (rowsOnScreen w')
                  /\ showsOption (Example.props 1 40 30) 34 r).
Proof.
  exact (scroll_renders_window Example.host Example.opened (Example.props 1 40 30)
           (1080 # 1) (12345 # 10) eq_refl eq_refl eq_refl eq_refl).
Defined.

(** ** An empty option list *)

(** C9.  With an empty option list the spacer has height zero and no row
    is rendered, whatever the scroll state; the open dropdown shows exactly
    that. *)
Theorem empty_list_renders_nothing (p : SelectProps) (s : State) :
  elements (options p) = [] ->
  totalHeight p = 0
  /\ renderedRows p s = []
  /\ (isOpen s = true ->
      exists d, dropdown (render p s) = Some d
                /\ containerHeight d = 0 /\ rows d = []).
Proof.
  intros He.
  assert (Ht : totalHeight p = 0).
  { unfold totalHeight, optionCount. rewrite He. reflexivity. }
  assert (Hr : renderedRows p s = []).
  { unfold renderedRows, visibleOptions. rewrite He, slice_nil. reflexivity. }
  split; [exact Ht | ]. split; [exact Hr | ].
  intros Ho. unfold render. simpl. rewrite Ho.
  eexists. split; [reflexivity | ]. simpl. split; assumption.
Qed.

Lemma empty_list_renders_nothing_witness :
  totalHeight (Example.props 3 0 1) = 0
  /\ renderedRows (Example.props 3 0 1) (setIsOpen true initialState) = []
  /\ (isOpen (setIsOpen true initialState) = true ->
      exists d, dropdown (render (Example.props 3 0 1) (setIsOpen true initialState)) = Some d
                /\ containerHeight d = 0 /\ rows d = []).
Proof.
  exact (empty_list_renders_nothing (Example.props 3 0 1) (setIsOpen true initialState)
           eq_refl).
Defined.

(** ** Height of the spacer and number of rows *)

(** C5.  In every world the widget can reach, the total height is the
    number of options times the item height (36000 for a thousand options)
    and at most [visibleItems + 2 * bufferItems] rows are on screen; the
    open dropdown carries exactly that height and those rows. *)
Theorem rows_bounded (h : Host) (w : World) (p : SelectProps) :
  reachable h w ->
  mounted w = Some p ->
  totalHeight p = optionCount p * itemHeight
  /\ (optionCount p = 1000 -> totalHeight p = 36000)
  /\ Z.of_nat (List.length (rowsOnScreen w)) <= visibleItems + 2 * bufferItems
  /\ (forall v d, view w = Some v -> dropdown v = Some d ->
        containerHeight d = optionCount p * itemHeight
        /\ Z.of_nat (List.length (rows d)) <= visibleItems + 2 * bufferItems).
Proof.
  intros Hr Hm. pose proof (inv_start w (reachable_Inv h w Hr)) as Hstart.
  assert (Hb : Z.of_nat (List.length (renderedRows p (state w)))
               <= visibleItems + 2 * bufferItems).
  { apply renderedRows_bounded. unfold visibleItems, bufferItems. lia. }
  split; [reflexivity | ]. split.
  { intros Hn. unfold totalHeight. rewrite Hn. reflexivity. }
  split.
  - destruct (isOpen (state w)) eqn:Ho.
    + rewrite (rowsOnScreen_open w p Hm Ho). exact Hb.
    + rewrite (rowsOnScreen_closed w Ho). unfold visibleItems, bufferItems. simpl. lia.
  - intros v d Hv Hd. unfold view in Hv. rewrite Hm in Hv. injection Hv as <-.
    unfold render in Hd. simpl in Hd.
    destruct (isOpen (state w)); [ | discriminate].
    injection Hd as <-. simpl. split; [reflexivity | exact Hb].
Qed.

Lemma rows_bounded_witness :
  totalHeight (Example.props 1 40 30) = optionCount (Example.props 1 40 30) * itemHeight
  /\ (optionCount (Example.props 1 40 30) = 1000 -> totalHeight (Example.props 1 40 30) = 36000)
  /\ Z.of_nat (List.length (rowsOnScreen Example.opened)) <= visibleItems + 2 * bufferItems
  /\ (forall v d, view Example.opened = Some v -> dropdown v = Some d ->
        containerHeight d = optionCount (Example.props 1 40 30) * itemHeight
        /\ Z.of_nat (List.length (rows d)) <= visibleItems + 2 * bufferItems).
Proof.
  apply (rows_bounded Example.host Example.opened (Example.props 1 40 30)).
  - apply (deliver_reachable Example.host
             [Mount (Example.props 1 40 30); Click TControl] Example.page).
    + apply reachable_initial.
    + reflexivity.
  - reflexivity.
Defined.

(** ** Strict equality and the selected option *)

Lemma number_equal_sym (x y : Js.number) :
  Js.number_equal x y = true -> Js.number_equal y x = true.
Proof.
  destruct x as [ | a | a], y as [ | b | b]; simpl; try discriminate.
  - destruct a, b; simpl; congruence.
  - intros H. apply Qeq_bool_iff in H. apply Qeq_bool_iff. symmetry. exact H.
Qed.

Lemma number_equal_trans (x y z : Js.number) :
  Js.number_equal x y = true -> Js.number_equal y z = true ->
  Js.number_equal x z = true.
Proof.
  destruct x as [ | a | a], y as [ | b | b], z as [ | c | c]; simpl; try discriminate.
  - destruct a, b, c; simpl; congruence.
  - intros H1 H2. apply Qeq_bool_iff in H1, H2. apply Qeq_bool_iff.
    rewrite H1. exact H2.
Qed.

Lemma strict_equals_sym (x y : Js.value) :
  Js.strict_equals x y = true -> Js.strict_equals y x = true.
Proof.
  destruct x, y; simpl; try discriminate; try reflexivity.
  - intros H. apply Bool.eqb_prop in H. subst. apply eqb_refl_bool.
  - apply number_equal_sym.
  - intros H. apply String.eqb_eq in H. subst. apply String.eqb_refl.
  - intros H. apply Nat.eqb_eq in H. subst. apply Nat.eqb_refl.
Qed.

Lemma strict_equals_trans (x y z : Js.value) :
  Js.strict_equals x y = true -> Js.strict_equals y z = true ->
  Js.strict_equals x z = true.
Proof.
  destruct x, y; simpl; try discriminate; destruct z; simpl; try discriminate;
    try reflexivity.
  - intros H1 H2. apply Bool.eqb_prop in H1, H2. subst. apply eqb_refl_bool.
  - apply number_equal_trans.
  - intros H1 H2. apply String.eqb_eq in H1, H2. subst. apply String.eqb_refl.
  - intros H1 H2. apply Nat.eqb_eq in H1, H2. subst. apply Nat.eqb_refl.
Qed.

Lemma find_first {A : Type} (f : A -> bool) (l : list A) (i : nat) (x : A) (n : Z) :
  nth_error l i = Some x ->
  f x = true ->
  (forall j y, (j < i)%nat -> nth_error l j = Some y -> f y = false) ->
  Js.find f l = Some x /\ Js.findIndexFrom f l n = n + Z.of_nat i.
Proof.
  revert i n. induction l as [ | a r IH]; intros i n Hi Hx Hbefore.
  - destruct i; discriminate.
  - destruct i as [ | i]; simpl in *.
    + injection Hi as ->. rewrite Hx. split; [reflexivity | lia].
    + rewrite (Hbefore 0%nat a) by (try lia; reflexivity).
      destruct (IH i (n + 1) Hi Hx) as [Hf Hn].
      * intros j y Hj Hy. apply (Hbefore (S j)); [lia | exact Hy].
      * split; [exact Hf | lia].
Qed.

Lemma at_some {A : Type} (l : list A) (k : Z) (x : A) :
  Js.at_ l k = Some x -> 0 <= k /\ nth_error l (Z.to_nat k) = Some x.
Proof.
  unfold Js.at_. destruct (k <? 0) eqn:E; [discriminate | ].
  apply Z.ltb_ge in E. auto.
Qed.

Lemma firstMatch_selected (p : SelectProps) (k : Z) (opt : SelectOption.t) :
  firstMatch p k opt ->
  selectedOption p = Some opt /\ selectedIndex p = k /\ 0 <= k.
Proof.
  intros (Hat & Hm & Hbefore). apply at_some in Hat as [Hk Hnth].
  destruct (find_first (matches (value p)) (elements (options p))
              (Z.to_nat k) opt 0 Hnth Hm) as [Hf Hi].
  - intros j y Hj Hy. apply (Hbefore (Z.of_nat j)); [lia | ].
    rewrite at_nth_error. exact Hy.
  - split; [exact Hf | ]. split; [ | exact Hk].
    unfold selectedIndex, Js.findIndex. rewrite Hi. lia.
Qed.

Lemma selected_firstMatch (p : SelectProps) (opt : SelectOption.t) :
  selectedOption p = Some opt -> firstMatch p (selectedIndex p) opt.
Proof.
  intros Hs. unfold selectedOption in Hs.
  destruct (find_some_first _ _ _ Hs) as (i & Hi & Hm & Hbefore).
  assert (F : firstMatch p (Z.of_nat i) opt).
  { split; [rewrite at_nth_error; exact Hi | ]. split; [exact Hm | ].
    intros j o Hj Ho. apply at_some in Ho as [_ Ho].
    apply (Hbefore (Z.to_nat j)); [lia | exact Ho]. }
  destruct (firstMatch_selected p _ opt F) as (_ & -> & _). exact F.
Qed.

Lemma uniqueValues_firstMatch (p : SelectProps) (k : Z) (opt : SelectOption.t) :
  uniqueValues (elements (options p)) ->
  Js.at_ (elements (options p)) k = Some opt ->
  matches (value p) opt = true ->
  firstMatch p k opt.
Proof.
  intros Hu Hat Hm. split; [exact Hat | ]. split; [exact Hm | ].
  intros j o Hj Ho. destruct (matches (value p) o) eqn:E; [ | reflexivity].
  unfold matches in *. apply strict_equals_sym in Hm.
  pose proof (strict_equals_trans _ _ _ E Hm) as Heq.
  specialize (Hu j k o opt Ho Hat Heq). lia.
Qed.

Lemma duplicated_firstMatch :
  firstMatch Example.duplicated 1 (SelectOption.make (Example.number 1) "A").
Proof.
  split; [reflexivity | ]. split; [reflexivity | ].
  intros j o Hj. assert (j = 0) by lia. subst j.
  simpl. intros Ho. injection Ho as <-. reflexivity.
Defined.

(** ** The text of the control *)

(** C8.  The control shows the label of the option whose value is the
    current value: of the first such option in general, hence of any such
    option when values are unique, and of some such option whenever there
    is one; it shows the placeholder when no option matches.  With the
    single option [{value: 1, label: "A"}] it shows ["A"] for the value [1]
    and the placeholder for the value [99]. *)
Theorem control_shows_selected_label (p : SelectProps) (s : State) :
  (forall k opt, firstMatch p k opt ->
     controlText (render p s) = SelectOption.label opt)
  /\ (uniqueValues (elements (options p)) ->
      forall opt, In opt (elements (options p)) -> matches (value p) opt = true ->
        controlText (render p s) = SelectOption.label opt)
  /\ ((exists opt, In opt (elements (options p)) /\ matches (value p) opt = true) ->
      exists opt, In opt (elements (options p)) /\ matches (value p) opt = true
                  /\ controlText (render p s) = SelectOption.label opt)
  /\ ((forall opt, In opt (elements (options p)) -> matches (value p) opt = false) ->
      controlText (render p s) = placeholder p)
  /\ controlText (render Example.single s) = "A"%string
  /\ controlText (render Example.unmatched s) = placeholder Example.unmatched.
Proof.
  assert (First : forall k opt, firstMatch p k opt ->
            controlText (render p s) = SelectOption.label opt).
  { intros k opt F. destruct (firstMatch_selected p k opt F) as (Hs & _).
    unfold render. simpl. rewrite Hs. reflexivity. }
  split; [exact First | ]. split; [ | split; [ | split; [ | split; reflexivity]]].
  - intros Hu opt Hin Hm. apply In_nth_error in Hin as [i Hi].
    apply (First (Z.of_nat i)). apply uniqueValues_firstMatch; try assumption.
    rewrite at_nth_error. exact Hi.
  - intros (opt & Hin & Hm).
    destruct (selectedOption p) as [o | ] eqn:Hs.
    + pose proof (selected_firstMatch p o Hs) as F.
      exists o. destruct F as (Hat & Hmo & Hb). split.
      * apply at_some in Hat as [_ Hat]. eapply nth_error_In. exact Hat.
      * split; [exact Hmo | ]. apply (First (selectedIndex p)).
        exact (conj Hat (conj Hmo Hb)).
    + unfold selectedOption in Hs. rewrite find_none in Hs.
      rewrite (Hs opt Hin) in Hm. discriminate.
  - intros Hnone. unfold render. simpl.
    assert (Hs : selectedOption p = None) by (apply find_none; exact Hnone).
    rewrite Hs. reflexivity.
Qed.

Lemma control_shows_selected_label_witness :
  controlText (render Example.duplicated initialState) = "A"%string
  /\ controlText (render Example.unmatched initialState) = defaultPlaceholder.
Proof.
  pose proof (control_shows_selected_label Example.duplicated initialState) as [First _].
  pose proof (control_shows_selected_label Example.unmatched initialState)
    as (_ & _ & _ & None_ & _).
  split.
  - exact (First 1 _ duplicated_firstMatch).
  - apply None_. intros opt [<- | []]. reflexivity.
Defined.

(** ** Opening the dropdown *)

Lemma open_step (h : Host) (w : World) (p : SelectProps) :
  mounted w = Some p ->
  isOpen (state w) = false ->
  0 <= selectedIndex p ->
  exists w',
    step h (Click TControl) w = Returned tt w'
    /\ state w' = setVisibleStartIndex
                    (Z.max 0 (selectedIndex p - visibleItems / 2))
                    (setIsOpen true (state w))
    /\ dropdownRef w' = Some (inject_Z (selectedIndex p * itemHeight))
    /\ log w' = log w
    /\ mounted w' = Some p.
Proof.
  intros Hm Ho Hk. apply Z.leb_le in Hk.
  unfold step, click, bind, get, setState, bind, get, modify. rewrite Hm, Ho.
  unfold commit, bind, get. simpl. rewrite Hm, Ho. simpl.
  unfold attachDropdownRef, modify. simpl.
  rewrite Nat.eqb_refl.
  destruct (dropdownRef w) as [d | ] eqn:Hd.
  - unfold scrollToSelected, bind, get. simpl. rewrite Hd, Hk.
    unfold modify, ret. simpl.
    eexists. split; [reflexivity | ]. simpl. rewrite Hm. repeat split; reflexivity.
  - unfold scrollToSelected, bind, get. simpl. rewrite Hk.
    unfold modify, ret. simpl.
    eexists. split; [reflexivity | ]. simpl. rewrite Hm. repeat split; reflexivity.
Qed.

(** C2.  When a click opens the dropdown and the current value matches
    the option at position [k], the scroll offset of the dropdown is set to
    [k * itemHeight] and the window start to
    [max 0 (k - floor (visibleItems / 2))].  Position [k] is the one
    [findIndex] reports: the only matching position when values are
    unique, as the data model requires, and the first one otherwise. *)
Theorem open_scrolls_to_selection (h : Host) (w : World) (p : SelectProps)
    (k : Z) (opt : SelectOption.t) :
  mounted w = Some p ->
  isOpen (state w) = false ->
  Js.at_ (elements (options p)) k = Some opt ->
  matches (value p) opt = true ->
  (uniqueValues (elements (options p))
   \/ forall j o, 0 <= j < k -> Js.at_ (elements (options p)) j = Some o ->
                  matches (value p) o = false) ->
  exists w',
    step h (Click TControl) w = Returned tt w'
    /\ isOpen (state w') = true
    /\ dropdownRef w' = Some (inject_Z (k * itemHeight))
    /\ visibleStartIndex (state w') = Z.max 0 (k - visibleItems / 2)
    /\ 0 <= k.
Proof.
  intros Hm Ho Hat Hmatch Hk.
  assert (F : firstMatch p k opt).
  { destruct Hk as [Hu | Hfirst].
    - apply uniqueValues_firstMatch; assumption.
    - exact (conj Hat (conj Hmatch Hfirst)). }
  destruct (firstMatch_selected p k opt F) as (_ & Hsel & Hk0).
  destruct (open_step h w p Hm Ho) as (w' & Hs & Hst & Hd & _); [lia | ].
  exists w'. rewrite Hst, Hd, Hsel. simpl. repeat split; auto.
Qed.

Lemma open_scrolls_to_selection_witness :
  exists w',
    step Example.host (Click TControl) Example.closedDuplicated = Returned tt w'
    /\ isOpen (state w') = true
    /\ dropdownRef w' = Some (inject_Z (1 * itemHeight))
    /\ visibleStartIndex (state w') = Z.max 0 (1 - visibleItems / 2)
    /\ 0 <= 1.
Proof.
  destruct duplicated_firstMatch as (Hat & Hmatch & Hfirst).
  exact (open_scrolls_to_selection Example.host Example.closedDuplicated
           Example.duplicated 1 _ eq_refl eq_refl Hat Hmatch (or_intror Hfirst)).
Defined.

(** ** Lists in which a value occurs more than once *)

Lemma renderedRows_selected (p : SelectProps) (s : State) (r : OptionRow) :
  In r (renderedRows p s) ->
  exists i o,
    Js.at_ (elements (options p)) i = Some o
    /\ actualIndex r = i
    /\ onClickValue r = SelectOption.value o
    /\ isSelected r = matches (value p) o.
Proof.
  intros Hin. apply In_nth_error in Hin as [j Hj].
  apply renderedRows_nth_error in Hj as (o & Hat & Hidx & _ & _ & Hv & Hsel).
  exists (visibleOptionsStartIndex s + Z.of_nat j), o. auto.
Qed.

(** C10.  When the current value occurs in the list, also more than once,
    the control shows the label of the first option that carries it, the
    index the open effect scrolls to is the position of that option, and
    every rendered row is marked selected exactly when the value of its
    option is strictly equal to the current value, so every rendered
    occurrence is marked. *)
Theorem first_match_wins (h : Host) (p : SelectProps) (s : State)
    (k : Z) (opt : SelectOption.t) :
  firstMatch p k opt ->
  controlText (render p s) = SelectOption.label opt
  /\ selectedIndex p = k
  /\ (forall w, mounted w = Some p -> isOpen (state w) = false ->
        exists w', step h (Click TControl) w = Returned tt w'
                   /\ dropdownRef w' = Some (inject_Z (k * itemHeight)))
  /\ (forall r, In r (renderedRows p s) ->
        exists i o, Js.at_ (elements (options p)) i = Some o
                    /\ actualIndex r = i
                    /\ isSelected r = matches (value p) o).
Proof.
  intros F. destruct (firstMatch_selected p k opt F) as (Hs & Hk & Hk0).
  split; [unfold render; simpl; rewrite Hs; reflexivity | ].
  split; [exact Hk | ]. split.
  - intros w Hm Ho. destruct (open_step h w p Hm Ho) as (w' & Hstep & _ & Hd & _); [lia | ].
    exists w'. rewrite Hk in Hd. auto.
  - intros r Hin. destruct (renderedRows_selected p s r Hin) as (i & o & Hat & Hi & _ & Hsel).
    exists i, o. auto.
Qed.

Lemma first_match_wins_witness :
  controlText (render Example.duplicated (state Example.openedDuplicated)) = "A"%string
  /\ selectedIndex Example.duplicated = 1
  /\ (forall w, mounted w = Some Example.duplicated -> isOpen (state w) = false ->
        exists w', step Example.host (Click TControl) w = Returned tt w'
                   /\ dropdownRef w' = Some (inject_Z (1 * itemHeight)))
  /\ (forall r, In r (renderedRows Example.duplicated (state Example.openedDuplicated)) ->
        exists i o, Js.at_ (elements (options Example.duplicated)) i = Some o
                    /\ actualIndex r = i
                    /\ isSelected r = matches (value Example.duplicated) o).
Proof.
  exact (first_match_wins Example.host Example.duplicated (state Example.openedDuplicated)
           1 _ duplicated_firstMatch).
Defined.

(** ** Choosing an option *)

Lemma find_some_In {A : Type} (f : A -> bool) (l : list A) (x : A) :
  In x l -> f x = true -> exists y, Js.find f l = Some y /\ In y l /\ f y = true.
Proof.
  intros Hin Hx. destruct (Js.find f l) as [y | ] eqn:E.
  - exists y. destruct (find_some_first f l y E) as (i & Hi & Hy & _).
    split; [reflexivity | ]. split; [eapply nth_error_In; exact Hi | exact Hy].
  - rewrite find_none in E. rewrite (E x Hin) in Hx. discriminate.
Qed.

Lemma pick_step (h : Host) (w : World) (p : SelectProps) (i : Z) (r : OptionRow) :
  mounted w = Some p ->
  isOpen (state w) = true ->
  rowAt w i = Some r ->
  exists w',
    step h (Click (TOption i)) w = Returned tt w'
    /\ log w' = log w ++ [OnChange (onClickValue r)]
    /\ state w' = setIsOpen false (state w)
    /\ mounted w' = Some p.
Proof.
  intros Hm Ho Hrow.
  unfold step, click, bind, get. rewrite Hrow.
  unfold modify, setState, bind, get, modify. simpl. rewrite Hm.
  unfold commit, bind, get. simpl. rewrite Hm, Ho. simpl.
  unfold attachDropdownRef, modify. simpl.
  unfold scrollToSelected, bind, get. simpl.
  rewrite Nat.eqb_refl. unfold ret.
  eexists. split; [reflexivity | ]. simpl. rewrite Hm. repeat split; reflexivity.
Qed.

(** C3.  A click on the rendered row of position [i] calls [onChange]
    exactly once, with the value of the option at position [i], and takes
    the widget from open to closed. *)
Theorem option_click_selects (h : Host) (w : World) (p : SelectProps)
    (i : Z) (r : OptionRow) :
  mounted w = Some p ->
  In r (rowsOnScreen w) ->
  actualIndex r = i ->
  exists opt w',
    Js.at_ (elements (options p)) i = Some opt
    /\ isOpen (state w) = true
    /\ step h (Click (TOption i)) w = Returned tt w'
    /\ log w' = log w ++ [OnChange (SelectOption.value opt)]
    /\ isOpen (state w') = false.
Proof.
  intros Hm Hin Hi.
  assert (Ho : isOpen (state w) = true).
  { destruct (isOpen (state w)) eqn:E; [reflexivity | ].
    rewrite (rowsOnScreen_closed w E) in Hin. destruct Hin. }
  destruct (find_some_In (fun r => actualIndex r =? i) (rowsOnScreen w) r Hin)
    as (r' & Hfind & Hin' & Hi'); [apply Z.eqb_eq; exact Hi | ].
  apply Z.eqb_eq in Hi'.
  rewrite (rowsOnScreen_open w p Hm Ho) in Hin'.
  destruct (renderedRows_selected p (state w) r' Hin') as (i' & opt & Hat & Hidx & Hv & _).
  assert (Hat' : Js.at_ (elements (options p)) i = Some opt) by congruence.
  destruct (pick_step h w p i r' Hm Ho Hfind) as (w' & Hstep & Hlog & Hst & _).
  exists opt, w'. rewrite Hlog, Hst, Hv. simpl. repeat split; auto.
Qed.

Lemma option_click_selects_witness :
  exists opt w',
    Js.at_ (elements (options Example.duplicated)) 2 = Some opt
    /\ isOpen (state Example.openedDuplicated) = true
    /\ step Example.host (Click (TOption 2)) Example.openedDuplicated = Returned tt w'
    /\ log w' = log Example.openedDuplicated ++ [OnChange (SelectOption.value opt)]
    /\ isOpen (state w') = false.
Proof.
  apply (option_click_selects Example.host Example.openedDuplicated Example.duplicated 2
           (renderOption Example.duplicated (state Example.openedDuplicated)
              (SelectOption.make (Example.number 1) "B") 2) eq_refl).
  - vm_compute. right. right. left. reflexivity.
  - reflexivity.
Defined.

(** ** The dropdown element and the listeners of the document *)

Create HintDb keeps.

Ltac keeps_auto := keeps_steps; try reflexivity; auto with keeps.

Lemma attachDropdownRef_keeps_listeners : keeps mousedownListeners attachDropdownRef.
Proof.
  unfold attachDropdownRef. apply keeps_modify. intros w.
  destruct (isOpen (state w)); [destruct (dropdownRef w) | ]; reflexivity.
Qed.

Lemma scrollToSelected_keeps_listeners (p : SelectProps) :
  keeps mousedownListeners (scrollToSelected p).
Proof. unfold scrollToSelected. keeps_auto. Qed.

Lemma measureOptions_keeps_listeners (h : Host) (p : SelectProps) :
  keeps mousedownListeners (measureOptions h p).
Proof.
  unfold measureOptions, createElement, readComputedStyle, appendChild, removeChild.
  keeps_auto.
Qed.

#[local] Hint Resolve attachDropdownRef_keeps_listeners
  scrollToSelected_keeps_listeners measureOptions_keeps_listeners : keeps.

Lemma commit_keeps_listeners (h : Host) (pp : SelectProps) (ps : State) :
  keeps mousedownListeners (commit h pp ps).
Proof. unfold commit. keeps_auto. Qed.

#[local] Hint Resolve commit_keeps_listeners : keeps.

Lemma setState_keeps_listeners (h : Host) (f : State -> State) :
  keeps mousedownListeners (setState h f).
Proof. unfold setState. keeps_auto. Qed.

#[local] Hint Resolve setState_keeps_listeners : keeps.

Lemma handleClickOutside_keeps_listeners (h : Host) (t : Target) :
  keeps mousedownListeners (handleClickOutside h t).
Proof. unfold handleClickOutside. keeps_auto. Qed.

#[local] Hint Resolve handleClickOutside_keeps_listeners : keeps.

Lemma dispatchMouseDown_keeps_listeners (h : Host) (t : Target) :
  keeps mousedownListeners (dispatchMouseDown h t).
Proof.
  unfold dispatchMouseDown. apply keeps_get_bind. intros w0.
  apply keeps_forEach. intros [ | id]; simpl; keeps_auto.
Qed.

Lemma click_keeps_listeners (h : Host) (t : Target) :
  keeps mousedownListeners (click h t).
Proof. unfold click. keeps_auto. Qed.

Lemma scroll_keeps_listeners (h : Host) (x : Q) :
  keeps mousedownListeners (scroll h x).
Proof. unfold scroll, handleScroll. keeps_auto. Qed.

Lemma update_keeps_listeners (h : Host) (p : SelectProps) :
  keeps mousedownListeners (update h p).
Proof. unfold update. keeps_auto. Qed.

Lemma step_listeners (h : Host) (e : Event) (w w' : World) :
  enabled w e = true ->
  step h e w = Returned tt w' ->
  mousedownListeners w' = listenersAfter e (mousedownListeners w).
Proof.
  intros He Hs.
  assert (K : forall m : M unit, keeps mousedownListeners m ->
                m w = Returned tt w' -> mousedownListeners w' = mousedownListeners w).
  { intros m Hk Hm. specialize (Hk w). rewrite Hm in Hk. exact Hk. }
  destruct e as [p | p | | t | t | x]; simpl in *.
  - rewrite mount_measure in Hs.
    pose proof (measureOptions_keeps_listeners h p) as Hk.
    match type of Hs with ?m ?w0 = _ => specialize (Hk w0) end.
    rewrite Hs in Hk. exact Hk.
  - exact (K _ (update_keeps_listeners h p) Hs).
  - unfold unmount, bind, get in Hs. destruct (mounted w); [ | discriminate].
    unfold removeClickOutsideListener, modify in Hs. injection Hs as <-. reflexivity.
  - exact (K _ (dispatchMouseDown_keeps_listeners h t) Hs).
  - exact (K _ (click_keeps_listeners h t) Hs).
  - exact (K _ (scroll_keeps_listeners h x) Hs).
Qed.

Lemma attachDropdownRef_coherent :
  hoare (fun _ => True) attachDropdownRef (fun _ => coherent).
Proof.
  intros w _. unfold attachDropdownRef, modify, coherent.
  destruct (isOpen (state w)) eqn:Ho.
  - destruct (dropdownRef w); simpl; intros _; exact Ho.
  - simpl. intros H. congruence.
Qed.

Lemma scrollToSelected_coherent (p : SelectProps) :
  preserves coherent (scrollToSelected p).
Proof.
  intros w Hc. unfold scrollToSelected, bind, get.
  destruct (isOpen (state w)) eqn:Ho; [ | exact Hc].
  destruct (dropdownRef w); [ | exact Hc].
  destruct (0 <=? selectedIndex p); [ | exact Hc].
  unfold modify, coherent. simpl. intros _. exact Ho.
Qed.

Lemma measureOptions_coherent (h : Host) (p : SelectProps) :
  preserves coherent (measureOptions h p).
Proof.
  intros w Hc. unfold measureOptions.
  destruct (0 <? optionCount p); [ | exact Hc].
  unfold bind, createElement, bind, get, modify, ret, readComputedStyle.
  destruct (getComputedStyle h); [ | exact I].
  unfold ret, appendChild, modify, removeChild, bind, get. simpl.
  destruct (existsb _ _); [ | exact I].
  unfold modify. exact Hc.
Qed.

Lemma commit_coherent (h : Host) (pp : SelectProps) (ps : State) :
  hoare (fun w => mounted w <> None \/ coherent w) (commit h pp ps)
        (fun _ => coherent).
Proof.
  intros w H. unfold commit. unfold bind at 1, get.
  destruct (mounted w) as [p | ] eqn:Hm.
  - refine (hoare_bind _ _ _ _ _ attachDropdownRef_coherent _ w I).
    intros _. apply preserves_bind; [ | intros _].
    + destruct (_ && _); [apply preserves_ret | apply scrollToSelected_coherent].
    + destruct (Nat.eqb _ _); [apply preserves_ret | apply measureOptions_coherent].
  - destruct H as [H | H]; [congruence | exact H].
Qed.

Lemma setState_coherent (h : Host) (f : State -> State) :
  preserves coherent (setState h f).
Proof.
  intros w Hc. unfold setState. unfold bind at 1, get.
  destruct (mounted w) as [p | ] eqn:Hm; [ | exact Hc].
  unfold bind, modify. apply commit_coherent. left. simpl. congruence.
Qed.

Lemma step_coherent (h : Host) (e : Event) : preserves coherent (step h e).
Proof.
  destruct e as [p | p | | t | t | x]; simpl.
  - intros w _. rewrite mount_measure. apply measureOptions_coherent.
    unfold coherent. simpl. congruence.
  - intros w Hc. unfold update. unfold bind at 1, get.
    destruct (mounted w) eqn:Hm; [ | exact Hc].
    unfold bind, modify. apply commit_coherent. left. simpl. congruence.
  - intros w Hc. unfold unmount, bind, get.
    destruct (mounted w); [ | exact Hc].
    unfold removeClickOutsideListener, modify, coherent. simpl. congruence.
  - unfold dispatchMouseDown. apply preserves_get_bind. intros w0 _.
    apply preserves_forEach. intros [ | id]; [ | apply preserves_ret].
    unfold handleClickOutside. apply preserves_get_bind. intros w1 _.
    destruct (mounted w1); [ | apply preserves_ret].
    destruct (negb _); [apply setState_coherent | apply preserves_ret].
  - unfold click. apply preserves_get_bind. intros w0 _.
    destruct t as [ | | | index]; try apply preserves_ret.
    + apply setState_coherent.
    + destruct (rowAt w0 index); [ | apply preserves_ret].
      apply preserves_bind; [ | intros _; apply setState_coherent].
      apply preserves_modify. intros w Hc. exact Hc.
  - intros w Hc. unfold scroll, bind, get.
    destruct (dropdownRef w) as [d | ] eqn:Hd; [ | exact Hc].
    unfold modify, handleScroll, bind, get. simpl.
    apply setState_coherent. unfold coherent in *. simpl. intros _.
    apply Hc. congruence.
Qed.

Lemma reachable_coherent (h : Host) (w : World) : reachable h w -> coherent w.
Proof.
  induction 1 as [body foreign | w w' e _ IH He Hs].
  - unfold coherent. simpl. congruence.
  - pose proof (step_coherent h e w IH) as H. rewrite Hs in H. exact H.
Qed.

(** ** Pointer-down outside the widget *)

Lemma dispatch_none (h : Host) (t : Target) (l : list Listener) (w : World) :
  filter isOwnListener l = [] ->
  forEach l (ownHandler h t) w = Returned tt w.
Proof.
  induction l as [ | x r IH]; simpl; [reflexivity | ].
  destruct x as [ | id]; simpl; [discriminate | ].
  intros H. unfold bind, ret. exact (IH H).
Qed.

Lemma dispatch_one (h : Host) (t : Target) (l : list Listener) (w : World) :
  List.length (filter isOwnListener l) = 1%nat ->
  forEach l (ownHandler h t) w = handleClickOutside h t w.
Proof.
  induction l as [ | x r IH]; simpl; [discriminate | ].
  destruct x as [ | id]; simpl.
  - intros H. assert (Hr : filter isOwnListener r = [])
      by (destruct (filter isOwnListener r); [reflexivity | discriminate]).
    unfold bind. destruct (handleClickOutside h t w) as [[] w' | e w'].
    + apply dispatch_none. exact Hr.
    + reflexivity.
  - intros H. unfold bind, ret. exact (IH H).
Qed.

Lemma close_step (h : Host) (w : World) (p : SelectProps) :
  mounted w = Some p ->
  setState h (setIsOpen false) w
  = Returned tt (withDropdownRef None (withState (setIsOpen false) w)).
Proof.
  intros Hm. unfold setState, bind, get, modify. rewrite Hm.
  unfold commit, bind, get. simpl. rewrite Hm.
  unfold attachDropdownRef, modify. simpl. rewrite Nat.eqb_refl, Z.eqb_refl.
  destruct (isOpen (state w)); simpl; reflexivity.
Qed.

Lemma closed_world_fixed (w : World) :
  isOpen (state w) = false -> dropdownRef w = None ->
  withDropdownRef None (withState (setIsOpen false) w) = w.
Proof.
  destruct w as [b n l m [o mw v] d lg]. simpl. intros -> ->. reflexivity.
Qed.

(** C6.  In every world the widget can reach: a pointer-down outside the
    widget leaves it closed, changing nothing at all when it was closed
    already; the document carries the widget's listener exactly while the
    widget is mounted, the listener being added by the mount, removed by
    the unmount, and touched by no other event. *)
Theorem outside_pointer_down_closes (h : Host) (w : World) :
  reachable h w ->
  (forall p, mounted w = Some p ->
     exists w',
       step h (MouseDown TOutside) w = Returned tt w'
       /\ isOpen (state w') = false
       /\ (isOpen (state w) = false -> w' = w))
  /\ (mounted w = None -> step h (MouseDown TOutside) w = Returned tt w)
  /\ ownListeners w = match mounted w with Some _ => 1%nat | None => 0%nat end
  /\ (forall e w',
        enabled w e = true -> step h e w = Returned tt w' ->
        mousedownListeners w' = listenersAfter e (mousedownListeners w)).
Proof.
  intros Hr. pose proof (reachable_Inv h w Hr) as HI.
  pose proof (reachable_coherent h w Hr) as Hc.
  pose proof (inv_listener w HI) as Hl.
  split; [ | split; [ | split; [exact Hl | ]]].
  - intros p Hm. rewrite Hm in Hl.
    exists (withDropdownRef None (withState (setIsOpen false) w)).
    split; [ | split; [reflexivity | ]].
    + simpl. unfold dispatchMouseDown, bind, get.
      rewrite (dispatch_one h TOutside _ w Hl).
      unfold handleClickOutside, bind, get. rewrite Hm. simpl.
      apply (close_step h w p Hm).
    + intros Ho. apply closed_world_fixed; [exact Ho | ].
      destruct (dropdownRef w) eqn:Hd; [ | reflexivity].
      unfold coherent in Hc. rewrite Hd in Hc.
      rewrite Hc in Ho by discriminate. discriminate.
  - intros Hm. rewrite Hm in Hl. simpl. unfold dispatchMouseDown, bind, get.
    apply dispatch_none. unfold ownListeners in Hl.
    destruct (filter isOwnListener (mousedownListeners w)); [reflexivity | discriminate].
  - intros e w'. apply step_listeners.
Qed.

Lemma opened_reachable : reachable Example.host Example.opened.
Proof.
  apply (deliver_reachable Example.host
           [Mount (Example.props 1 40 30); Click TControl] Example.page).
  - apply reachable_initial.
  - reflexivity.
Defined.

Lemma outside_pointer_down_closes_witness :
  exists w',
    step Example.host (MouseDown TOutside) Example.opened = Returned tt w'
    /\ isOpen (state w') = false
    /\ (isOpen (state Example.opened) = false -> w' = Example.opened).
Proof.
  exact (proj1 (outside_pointer_down_closes Example.host Example.opened opened_reachable)
           (Example.props 1 40 30) eq_refl).
Defined.

(** ** The cached width *)

Lemma commit_measure (h : Host) (pp : SelectProps) (ps : State)
    (p : SelectProps) (w : World) :
  mounted w = Some p ->
  exists w1,
    pageAndWidth w1 = pageAndWidth w
    /\ mounted w1 = Some p
    /\ commit h pp ps w
       = if Nat.eqb (identity (options pp)) (identity (options p))
         then Returned tt w1 else measureOptions h p w1.
Proof.
  intros Hm. unfold commit, bind, get. rewrite Hm.
  unfold attachDropdownRef, modify, scrollToSelected, bind, get, modify, ret.
  destruct (Nat.eqb (identity (options pp)) (identity (options p)));
    destruct (Bool.eqb (isOpen ps) (isOpen (state w))
              && (selectedIndex pp =? selectedIndex p));
    destruct (isOpen (state w)) eqn:Ho; simpl; try rewrite Ho;
    destruct (dropdownRef w) eqn:Hd; simpl; try rewrite Ho; try rewrite Hd; simpl;
    destruct (0 <=? selectedIndex p);
    (eexists; split; [ | split; [ | reflexivity]]; [reflexivity | exact Hm]).
Qed.

Lemma update_commit (h : Host) (p p' : SelectProps) (w : World) :
  mounted w = Some p ->
  step h (Update p') w = commit h p (state w) (withMounted (Some p') w).
Proof.
  intros Hm. unfold step, update, bind, get. rewrite Hm. reflexivity.
Qed.

Lemma fold_max_shift {A : Type} (f : A -> Z) (c : Z) (l : list A) (a : Z) :
  fold_left (fun acc x => Z.max acc (f x + c)) l (a + c)
  = fold_left (fun acc x => Z.max acc (f x)) l a + c.
Proof.
  revert a. induction l as [ | x r IH]; intros a; simpl; [reflexivity | ].
  rewrite Z.add_max_distr_r. apply IH.
Qed.

Lemma fold_max_bounds {A : Type} (g : A -> Z) (l : list A) (a : Z) :
  let m := fold_left (fun acc x => Z.max acc (g x)) l a in
  a <= m
  /\ (forall x, In x l -> g x <= m)
  /\ (m = a \/ exists x, In x l /\ m = g x).
Proof.
  revert a. induction l as [ | x r IH]; intros a; simpl.
  - split; [lia | ]. split; [intros x [] | left; reflexivity].
  - destruct (IH (Z.max a (g x))) as (Hle & Hall & Hex).
    split; [lia | ]. split.
    + intros y [<- | Hy]; [lia | apply Hall; exact Hy].
    + destruct Hex as [Hm | (y & Hy & Hm)].
      * destruct (Z.max_spec a (g x)) as [[_ E] | [_ E]].
        -- right. exists x. split; [left; reflexivity | congruence].
        -- left. congruence.
      * right. exists y. split; [right; exact Hy | exact Hm].
Qed.

Lemma measureLabels_widest (h : Host) (st : ProbeStyle) (opts : list SelectOption.t) :
  opts <> [] ->
  (forall opt, In opt opts -> 0 <= offsetWidth h st (SelectOption.label opt)) ->
  measureLabels h st opts = widestLabel h st opts + 20.
Proof.
  intros Hne Hpos. unfold measureLabels, widestLabel.
  rewrite <- fold_max_shift.
  destruct opts as [ | o r]; [congruence | ]. simpl.
  pose proof (Hpos o (or_introl eq_refl)).
  f_equal. lia.
Qed.

Lemma recomputations_pass (l : list Call) (n : Node) (m : Z) :
  recomputations (l ++ [AppendChild n; RemoveChild n; SetMaxDropdownWidth m])
  = S (recomputations l).
Proof.
  unfold recomputations. rewrite filter_app, length_app. simpl. lia.
Qed.

Lemma optionCount_pos (p : SelectProps) :
  elements (options p) <> [] -> 0 < optionCount p.
Proof.
  unfold optionCount. destruct (elements (options p)); [congruence | simpl; lia].
Qed.

(** C4, as the code has it.  An update that hands over the same array,
    or an empty one, recomputes nothing and leaves the cached width as it
    was.  An update that hands over another, non-empty array runs exactly
    one measurement pass, after which the cached width is the largest of
    [0] and the measured label widths plus [20] (the widest label plus
    [20] when widths are not negative).  The dropdown is as wide as the
    cached width when that is positive, and so is the control while open;
    otherwise, and always while closed, the width is automatic. *)
Theorem width_recomputed_for_new_nonempty_list (h : Host) (w : World)
    (p p' : SelectProps) :
  mounted w = Some p ->
  Forall (fun n => (n < nextNode w)%nat) (bodyChildren w) ->
  ((identity (options p') = identity (options p) \/ elements (options p') = []) ->
     exists w',
       step h (Update p') w = Returned tt w'
       /\ log w' = log w
       /\ maxDropdownWidth (state w') = maxDropdownWidth (state w))
  /\ (identity (options p') <> identity (options p) ->
      elements (options p') <> [] ->
      forall cs, getComputedStyle h = Some cs ->
      let st := probeStyle (fontFamily cs) (fontSize cs) in
      let m := measureLabels h st (elements (options p')) in
      exists w',
        step h (Update p') w = Returned tt w'
        /\ log w' = log w ++ [AppendChild (nextNode w); RemoveChild (nextNode w);
                              SetMaxDropdownWidth m]
        /\ recomputations (log w') = S (recomputations (log w))
        /\ maxDropdownWidth (state w') = m
        /\ 0 <= m
        /\ (forall opt, In opt (elements (options p')) ->
              offsetWidth h st (SelectOption.label opt) + 20 <= m)
        /\ (m = 0 \/ exists opt, In opt (elements (options p'))
                                 /\ m = offsetWidth h st (SelectOption.label opt) + 20)
        /\ ((forall opt, In opt (elements (options p')) ->
               0 <= offsetWidth h st (SelectOption.label opt)) ->
            m = widestLabel h st (elements (options p')) + 20))
  /\ (forall s,
        controlWidth (render p s)
        = (if isOpen s
           then if 0 <? maxDropdownWidth s then Px (maxDropdownWidth s) else Auto
           else Auto)
        /\ (isOpen s = true ->
            exists d, dropdown (render p s) = Some d
                      /\ dropdownWidth d
                         = if 0 <? maxDropdownWidth s then Px (maxDropdownWidth s) else Auto)).
Proof.
  intros Hm Hfresh.
  destruct (commit_measure h p (state w) p' (withMounted (Some p') w) eq_refl)
    as (w1 & Hpage & Hm1 & Hcommit).
  unfold pageAndWidth in Hpage. simpl in Hpage.
  injection Hpage as Hlog Hwidth Hbody Hnext.
  rewrite <- (update_commit h p p' w Hm) in Hcommit.
  split; [ | split].
  - intros [Hid | Hempty].
    + rewrite <- Hid, Nat.eqb_refl in Hcommit. exists w1. auto.
    + rewrite measureOptions_empty in Hcommit
        by (unfold optionCount; rewrite Hempty; reflexivity).
      exists w1. split; [ | auto].
      rewrite Hcommit. destruct (Nat.eqb _ _); reflexivity.
  - intros Hid Hne cs Hcs st m.
    assert (E : Nat.eqb (identity (options p)) (identity (options p')) = false)
      by (apply Nat.eqb_neq; congruence).
    rewrite E in Hcommit.
    destruct (measureOptions_pass h p' cs w1 Hcs (optionCount_pos p' Hne))
      as (w' & Hpass & Hmeasured).
    { rewrite Hbody, Hnext. exact Hfresh. }
    fold st in Hmeasured. fold m in Hmeasured.
    destruct Hmeasured as [_ Ml Ms _ _ _ _].
    rewrite Hlog, Hnext in Ml.
    destruct (fold_max_bounds
                (fun opt => offsetWidth h st (SelectOption.label opt) + 20)
                (elements (options p')) 0) as (H0 & Hall & Hex).
    exists w'. split; [congruence | ]. split; [exact Ml | ].
    split; [rewrite Ml; apply recomputations_pass | ].
    split; [rewrite Ms; reflexivity | ].
    split; [exact H0 | ]. split; [exact Hall | ]. split; [exact Hex | ].
    intros Hpos. apply measureLabels_widest; assumption.
  - intros s. unfold render. simpl. split.
    + destruct (isOpen s); reflexivity.
    + intros ->. eexists. split; reflexivity.
Qed.

Lemma closed_measured :
  mounted Example.closed = Some (Example.props 1 40 30)
  /\ Forall (fun n => (n < nextNode Example.closed)%nat) (bodyChildren Example.closed)
  /\ maxDropdownWidth (state Example.closed) = 76.
Proof.
  split; [reflexivity | ]. split; [ | reflexivity].
  repeat constructor.
Defined.

Lemma width_recomputed_for_new_nonempty_list_witness :
  exists w',
    step Example.host (Update (Example.props 2 3 30)) Example.closed = Returned tt w'
    /\ recomputations (log w') = S (recomputations (log Example.closed))
    /\ maxDropdownWidth (state w')
       = measureLabels Example.host
           (probeStyle (fontFamily Example.style) (fontSize Example.style))
           (Example.numbered 3).
Proof.
  destruct closed_measured as (Hm & Hfresh & _).
  destruct (width_recomputed_for_new_nonempty_list Example.host Example.closed
              (Example.props 1 40 30) (Example.props 2 3 30) Hm Hfresh)
    as (_ & New & _).
  destruct (New ltac:(discriminate) ltac:(discriminate) Example.style eq_refl)
    as (w' & Hs & _ & Hn & Hw & _).
  exists w'. split; [exact Hs | ]. split; [exact Hn | exact Hw].
Defined.

(** C4, as the specification has it, fails twice when the option list of
    the mounted example is replaced: by an empty list, nothing is
    recomputed at all; by three options labelled ["item"], measured at
    [56], the cached width becomes [76]. *)
Lemma width_not_recomputed_as_widest_label :
  ~ recomputesWidestOnce Example.host Example.closed (Example.props 2 0 30)
  /\ ~ recomputesWidestOnce Example.host Example.closed (Example.props 2 3 30).
Proof.
  split; intros (w' & cs & Hs & Hcs & Hn & Hw).
  - vm_compute in Hs. injection Hs as <-. vm_compute in Hn. discriminate.
  - vm_compute in Hs. injection Hs as <-.
    injection Hcs as <-. vm_compute in Hw. discriminate.
Qed.

(** ** A host without computed styles *)

(** C7, as the code has it.  When the host cannot deliver the computed
    style, the measurement of a non-empty list throws, and so does the
    mount that runs it: nothing catches the error.  At that point the
    probe has not been appended and the cached width is untouched.  In
    every pass, whatever the host, the children of the body are in the end
    what they were, and a probe that was appended is removed by the next
    call of the same pass. *)
Theorem measurement_propagates_host_failure (h : Host) (p : SelectProps) (w : World) :
  Forall (fun n => (n < nextNode w)%nat) (bodyChildren w) ->
  (getComputedStyle h = None -> 0 < optionCount p ->
     exists w',
       measureOptions h p w = Thrown TypeError w'
       /\ bodyChildren w' = bodyChildren w
       /\ log w' = log w
       /\ state w' = state w)
  /\ (getComputedStyle h = None -> 0 < optionCount p ->
      exists w', step h (Mount p) w = Thrown TypeError w')
  /\ match measureOptions h p w with
     | Returned _ w' =>
         bodyChildren w' = bodyChildren w
         /\ (log w' = log w
             \/ exists m, log w' = log w ++ [AppendChild (nextNode w);
                                            RemoveChild (nextNode w);
                                            SetMaxDropdownWidth m])
     | Thrown _ w' => bodyChildren w' = bodyChildren w /\ log w' = log w
     end.
Proof.
  intros Hfresh. split; [ | split].
  - intros Hcs Hlen. rewrite (measureOptions_throws h p w Hcs Hlen).
    eexists. split; [reflexivity | ]. simpl. auto.
  - intros Hcs Hlen. change (step h (Mount p) w) with (mount h p w).
    rewrite mount_measure.
    rewrite (measureOptions_throws h p _ Hcs Hlen). eexists. reflexivity.
  - destruct (Z.ltb_spec 0 (optionCount p)) as [Hlen | Hlen].
    + destruct (getComputedStyle h) as [cs | ] eqn:Hcs.
      * destruct (measureOptions_pass h p cs w Hcs Hlen Hfresh) as (w' & -> & Hm).
        destruct Hm as [Mb Ml _ _ _ _ _]. split; [exact Mb | ].
        right. eexists. exact Ml.
      * rewrite (measureOptions_throws h p w Hcs Hlen). simpl. auto.
    + unfold measureOptions. apply Z.ltb_ge in Hlen. rewrite Hlen. simpl. auto.
Qed.

Lemma measurement_propagates_host_failure_witness :
  (exists w',
     measureOptions Example.brokenHost (Example.props 1 40 30) Example.page
     = Thrown TypeError w'
     /\ bodyChildren w' = bodyChildren Example.page
     /\ log w' = log Example.page
     /\ state w' = state Example.page)
  /\ (exists w',
        step Example.brokenHost (Mount (Example.props 1 40 30)) Example.page
        = Thrown TypeError w').
Proof.
  assert (Hfresh : Forall (fun n => (n < nextNode Example.page)%nat)
                     (bodyChildren Example.page)) by (repeat constructor).
  destruct (measurement_propagates_host_failure Example.brokenHost
              (Example.props 1 40 30) Example.page Hfresh) as (Throws & Mounts & _).
  split; [apply Throws | apply Mounts]; reflexivity.
Defined.

(** C7, as the specification has it, fails on the host without computed
    styles: the measurement does not return, so it leaves no width, set or
    unset, behind. *)
Lemma measurement_does_not_fail_soft :
  ~ failsSoft Example.brokenHost (Example.props 1 40 30) Example.page.
Proof.
  intros (w' & H & _). vm_compute in H. discriminate.
Qed.

(** * Further properties of the widget *)

(** ** Pointer events that do not choose an option *)

Lemma ownHandler_inside (h : Host) (t : Target) (l : Listener) (w : World) :
  contains t = true -> ownHandler h t l w = Returned tt w.
Proof.
  intros Hc. destruct l as [ | id]; [ | reflexivity].
  simpl. unfold handleClickOutside, bind, get.
  destruct (mounted w); [rewrite Hc | ]; reflexivity.
Qed.

(** X1.  A pointer-down on the widget itself (the control, the dropdown or a
    row) changes nothing, whatever listeners the document carries. *)
Theorem inside_pointer_down_ignored (h : Host) (t : Target) (w : World) :
  contains t = true -> step h (MouseDown t) w = Returned tt w.
Proof.
  intros Hc. simpl. unfold dispatchMouseDown, bind, get.
  generalize (mousedownListeners w) as l.
  induction l as [ | x r IH]; simpl; [reflexivity | ].
  unfold bind. rewrite (ownHandler_inside h t x w Hc). exact IH.
Qed.

Lemma inside_pointer_down_ignored_witness :
  step Example.host (MouseDown (TOption 30)) Example.opened = Returned tt Example.opened.
Proof.
  exact (inside_pointer_down_ignored Example.host (TOption 30) Example.opened eq_refl).
Defined.

(** X2.  A click on the control flips [isOpen] and does nothing else that can
    be seen from outside: [onChange] is not called, nothing is measured,
    the props stay; closing removes the dropdown element and keeps the
    window start. *)
Theorem control_click_toggles (h : Host) (w : World) (p : SelectProps) :
  mounted w = Some p ->
  exists w',
    step h (Click TControl) w = Returned tt w'
    /\ isOpen (state w') = negb (isOpen (state w))
    /\ log w' = log w
    /\ maxDropdownWidth (state w') = maxDropdownWidth (state w)
    /\ mounted w' = Some p
    /\ (isOpen (state w) = true ->
        dropdownRef w' = None
        /\ visibleStartIndex (state w') = visibleStartIndex (state w)).
Proof.
  intros Hm.
  unfold step, click, bind, get, setState, bind, get, modify. rewrite Hm.
  unfold commit, bind, get. simpl. rewrite Hm, Nat.eqb_refl.
  unfold attachDropdownRef, modify, scrollToSelected, bind, get, modify, ret.
  simpl.
  destruct (isOpen (state w)) eqn:Ho; simpl;
    destruct (dropdownRef w) eqn:Hd; simpl; try rewrite Hd;
    destruct (0 <=? selectedIndex p);
    (eexists; split; [reflexivity | ]; simpl;
     repeat split; auto; discriminate).
Qed.

Lemma control_click_toggles_witness :
  exists w',
    step Example.host (Click TControl) Example.opened = Returned tt w'
    /\ isOpen (state w') = negb (isOpen (state Example.opened))
    /\ log w' = log Example.opened
    /\ maxDropdownWidth (state w') = maxDropdownWidth (state Example.opened)
    /\ mounted w' = Some (Example.props 1 40 30)
    /\ (isOpen (state Example.opened) = true ->
        dropdownRef w' = None
        /\ visibleStartIndex (state w') = visibleStartIndex (state Example.opened)).
Proof.
  exact (control_click_toggles Example.host Example.opened (Example.props 1 40 30) eq_refl).
Defined.

(** ** What a commit does before it measures *)

(** The effect that scrolls to the selection runs in a commit when
    [isOpen] or the selected index has changed, and acts when the widget
    is open and something is selected. *)
Lemma commit_effects (h : Host) (pp : SelectProps) (ps : State)
    (p : SelectProps) (w : World) :
  mounted w = Some p ->
  exists w1,
    commit h pp ps w
    = (if Nat.eqb (identity (options pp)) (identity (options p))
       then Returned tt w1 else measureOptions h p w1)
    /\ isOpen (state w1) = isOpen (state w)
    /\ (if negb (Bool.eqb (isOpen ps) (isOpen (state w))
                 && (selectedIndex pp =? selectedIndex p))
           && isOpen (state w) && (0 <=? selectedIndex p)
        then visibleStartIndex (state w1)
             = Z.max 0 (selectedIndex p - visibleItems / 2)
             /\ dropdownRef w1 = Some (inject_Z (selectedIndex p * itemHeight))
        else visibleStartIndex (state w1) = visibleStartIndex (state w)
             /\ dropdownRef w1
                = if isOpen (state w)
                  then match dropdownRef w with
                       | Some d => Some d
                       | None => Some (inject_Z 0)
                       end
                  else None).
Proof.
  intros Hm. unfold commit, bind, get. rewrite Hm.
  unfold attachDropdownRef, modify, scrollToSelected, bind, get, modify, ret.
  destruct (Nat.eqb (identity (options pp)) (identity (options p)));
    destruct (Bool.eqb (isOpen ps) (isOpen (state w))
              && (selectedIndex pp =? selectedIndex p));
    destruct (isOpen (state w)) eqn:Ho; simpl; try rewrite Ho;
    destruct (dropdownRef w) eqn:Hd; simpl; try rewrite Ho; try rewrite Hd; simpl;
    destruct (0 <=? selectedIndex p); simpl;
    (eexists; split; [reflexivity | ]; simpl; auto).
Qed.

Lemma measureOptions_keeps_start (h : Host) (p : SelectProps) :
  keeps (fun w => visibleStartIndex (state w)) (measureOptions h p).
Proof.
  unfold measureOptions, createElement, readComputedStyle, appendChild, removeChild.
  keeps_auto.
Qed.

Lemma measureOptions_keeps_dropdown (h : Host) (p : SelectProps) :
  keeps dropdownRef (measureOptions h p).
Proof.
  unfold measureOptions, createElement, readComputedStyle, appendChild, removeChild.
  keeps_auto.
Qed.

Lemma measureOptions_keeps_open (h : Host) (p : SelectProps) :
  keeps (fun w => isOpen (state w)) (measureOptions h p).
Proof.
  unfold measureOptions, createElement, readComputedStyle, appendChild, removeChild.
  keeps_auto.
Qed.

Lemma measureOptions_keeps_mounted (h : Host) (p : SelectProps) :
  keeps mounted (measureOptions h p).
Proof.
  unfold measureOptions, createElement, readComputedStyle, appendChild, removeChild.
  keeps_auto.
Qed.

Lemma no_match_index (p : SelectProps) :
  (forall opt, In opt (elements (options p)) -> matches (value p) opt = false) ->
  selectedIndex p = -1.
Proof.
  intros Hnone. apply findIndex_find_none. apply find_none. exact Hnone.
Qed.

(** ** Opening again *)

(** When the widget is opened while no option matches the value, the new
    dropdown element starts at scroll offset [0], but the window start is
    the one the last scroll or opening left behind: the rows rendered are
    those around the old start. *)
Lemma reopen_without_selection_keeps_window (h : Host) (w : World)
    (p : SelectProps) :
  mounted w = Some p ->
  isOpen (state w) = false ->
  dropdownRef w = None ->
  (forall opt, In opt (elements (options p)) -> matches (value p) opt = false) ->
  exists w',
    step h (Click TControl) w = Returned tt w'
    /\ state w' = setIsOpen true (state w)
    /\ dropdownRef w' = Some (inject_Z 0)
    /\ rowsOnScreen w' = renderedRows p (setIsOpen true (state w)).
Proof.
  intros Hm Ho Hd Hnone. pose proof (no_match_index p Hnone) as Hsel.
  unfold step, click, bind, get, setState, bind, get, modify. rewrite Hm, Ho.
  unfold commit, bind, get. simpl. rewrite Hm, Ho, Nat.eqb_refl. simpl.
  unfold attachDropdownRef, modify, scrollToSelected, bind, get, modify, ret.
  simpl. rewrite Hd. simpl. rewrite Hsel. simpl.
  eexists. split; [reflexivity | ]. simpl. split; [reflexivity | ].
  split; [reflexivity | ].
  unfold rowsOnScreen, view. simpl. rewrite Hm. reflexivity.
Qed.

(** X3.  Once the window start has passed the end of the list by the buffer,
    no row is rendered, also when the list has options; for a start that
    is not negative this is the only way an option list renders no row. *)
Theorem window_past_the_end_is_empty (p : SelectProps) (s : State) :
  0 <= visibleStartIndex s ->
  (renderedRows p s = []
   <-> optionCount p <= Z.max 0 (visibleStartIndex s - bufferItems)).
Proof.
  intros Hs.
  assert (Hlen : Z.of_nat (List.length (renderedRows p s))
                 = Z.max 0 (visibleOptionsEndIndex p s
                            - Z.min (visibleOptionsStartIndex s) (optionCount p))).
  { apply renderedRows_length. unfold visibleItems, bufferItems. lia. }
  unfold visibleOptionsEndIndex, visibleOptionsStartIndex, visibleItems, bufferItems in *.
  assert (Hc : 0 <= optionCount p) by (unfold optionCount; lia).
  split.
  - intros E. rewrite E in Hlen. simpl in Hlen. lia.
  - intros Hle. destruct (renderedRows p s); [reflexivity | simpl in Hlen; lia].
Qed.

Lemma window_past_the_end_is_empty_witness :
  renderedRows (Example.props 1 40 30) (setVisibleStartIndex 45 initialState) = []
  <-> optionCount (Example.props 1 40 30) <= Z.max 0 (45 - bufferItems).
Proof.
  apply (window_past_the_end_is_empty (Example.props 1 40 30)
           (setVisibleStartIndex 45 initialState)).
  simpl. lia.
Defined.

(** ** Updates of the props *)

(** X5.  An update of the props leaves the window start alone unless the
    widget is open and the update moves the selection to another option. *)
Theorem update_keeps_window_start (h : Host) (w w' : World) (p p' : SelectProps) :
  mounted w = Some p ->
  isOpen (state w) = false \/ selectedIndex p' < 0
    \/ selectedIndex p' = selectedIndex p ->
  step h (Update p') w = Returned tt w' ->
  visibleStartIndex (state w') = visibleStartIndex (state w)
  /\ isOpen (state w') = isOpen (state w).
Proof.
  intros Hm Hcond Hs. rewrite (update_commit h p p' w Hm) in Hs.
  destruct (commit_effects h p (state w) p' (withMounted (Some p') w) eq_refl)
    as (w1 & Hc & Hopen & Heff).
  simpl in Hopen, Heff. rewrite eqb_refl_bool in Heff. simpl in Heff.
  assert (Hstart : visibleStartIndex (state w1) = visibleStartIndex (state w)).
  { destruct Hcond as [Ho | [Hneg | Hsame]].
    - rewrite Ho in Heff. rewrite andb_false_r in Heff. simpl in Heff. tauto.
    - assert (E : (0 <=? selectedIndex p') = false) by (apply Z.leb_gt; exact Hneg).
      rewrite E, andb_false_r in Heff. tauto.
    - rewrite Hsame, Z.eqb_refl in Heff. simpl in Heff. tauto. }
  rewrite Hc in Hs. destruct (Nat.eqb _ _).
  - injection Hs as <-. auto.
  - pose proof (measureOptions_keeps_start h p' w1) as K1.
    pose proof (measureOptions_keeps_open h p' w1) as K2.
    rewrite Hs in K1, K2. simpl in K1, K2. split; congruence.
Qed.

Lemma update_keeps_window_start_witness :
  visibleStartIndex (state Scenario.listReplaced)
  = visibleStartIndex (state Scenario.scrolledThenClosed)
  /\ isOpen (state Scenario.listReplaced) = isOpen (state Scenario.scrolledThenClosed).
Proof.
  apply (update_keeps_window_start Example.host Scenario.scrolledThenClosed
           Scenario.listReplaced (Example.props 1 40 99) (Example.props 2 3 99) eq_refl).
  - left. reflexivity.
  - reflexivity.
Defined.

(** X6.  While the widget is open and the option list is the same array, an
    update that moves the selection to position [k] scrolls the dropdown
    to [k * itemHeight] and recentres the window; an update that leaves
    the selected index where it was leaves scroll offset and window
    alone. *)
Theorem value_change_while_open_rescrolls (h : Host) (w : World)
    (p p' : SelectProps) (d : Q) :
  mounted w = Some p ->
  isOpen (state w) = true ->
  dropdownRef w = Some d ->
  identity (options p') = identity (options p) ->
  (forall k opt, firstMatch p' k opt -> selectedIndex p <> k ->
     exists w',
       step h (Update p') w = Returned tt w'
       /\ dropdownRef w' = Some (inject_Z (k * itemHeight))
       /\ visibleStartIndex (state w') = Z.max 0 (k - visibleItems / 2)
       /\ isOpen (state w') = true)
  /\ (selectedIndex p' = selectedIndex p ->
      exists w',
        step h (Update p') w = Returned tt w'
        /\ dropdownRef w' = Some d
        /\ visibleStartIndex (state w') = visibleStartIndex (state w)
        /\ isOpen (state w') = true).
Proof.
  intros Hm Ho Hd Hid.
  destruct (commit_effects h p (state w) p' (withMounted (Some p') w) eq_refl)
    as (w1 & Hc & Hopen & Heff).
  rewrite <- (update_commit h p p' w Hm) in Hc.
  simpl in Hopen, Heff. rewrite eqb_refl_bool, Ho, Hd in Heff. simpl in Heff.
  rewrite <- Hid, Nat.eqb_refl in Hc.
  split.
  - intros k opt F Hne. destruct (firstMatch_selected p' k opt F) as (_ & Hk & Hk0).
    rewrite Hk in Heff.
    assert (E1 : (selectedIndex p =? k) = false) by (apply Z.eqb_neq; exact Hne).
    assert (E2 : (0 <=? k) = true) by (apply Z.leb_le; exact Hk0).
    rewrite E1, E2 in Heff. simpl in Heff. destruct Heff as [Hv Hr].
    exists w1. rewrite Hopen, Ho. auto.
  - intros Hsame. rewrite Hsame, Z.eqb_refl in Heff. simpl in Heff.
    destruct Heff as [Hv Hr]. exists w1. rewrite Hopen, Ho. auto.
Qed.

Lemma value_change_while_open_rescrolls_witness :
  exists w',
    step Example.host (Update (Example.props 1 40 7)) Example.opened = Returned tt w'
    /\ dropdownRef w' = Some (inject_Z (7 * itemHeight))
    /\ visibleStartIndex (state w') = Z.max 0 (7 - visibleItems / 2)
    /\ isOpen (state w') = true.
Proof.
  destruct (value_change_while_open_rescrolls Example.host Example.opened
              (Example.props 1 40 30) (Example.props 1 40 7) (1080 # 1)
              eq_refl eq_refl eq_refl eq_refl) as [Moved _].
  apply (Moved 7 (SelectOption.make (Example.number 7) "item")).
  - exact (selected_firstMatch (Example.props 1 40 7) _ eq_refl).
  - discriminate.
Defined.

(** ** Rows *)

Lemma renderedRows_nth_render (p : SelectProps) (s : State) (j : nat) (r : OptionRow) :
  nth_error (renderedRows p s) j = Some r ->
  exists opt, r = renderOption p s opt (Z.of_nat j).
Proof.
  unfold renderedRows, Js.mapi. rewrite mapiFrom_nth_error.
  destruct (nth_error (visibleOptions p s) j) as [opt | ]; [ | discriminate].
  simpl. intros H. injection H as <-. exists opt. reflexivity.
Qed.

(** X7.  In every state, each rendered row is [itemHeight] high and sits at
    [actualIndex * itemHeight], and the row after it shows the next index
    exactly [itemHeight] further down: rows neither overlap nor leave a
    gap. *)
Theorem rows_tile (p : SelectProps) (s : State) (j : nat) (r : OptionRow) :
  nth_error (renderedRows p s) j = Some r ->
  height r = itemHeight
  /\ top r = actualIndex r * itemHeight
  /\ actualIndex r = visibleOptionsStartIndex s + Z.of_nat j
  /\ (forall r', nth_error (renderedRows p s) (S j) = Some r' ->
        actualIndex r' = actualIndex r + 1 /\ top r' = top r + height r).
Proof.
  intros Hr. destruct (renderedRows_nth_render p s j r Hr) as (opt & ->).
  split; [reflexivity | ]. split; [reflexivity | ]. split; [reflexivity | ].
  intros r' Hr'. destruct (renderedRows_nth_render p s (S j) r' Hr') as (opt' & ->).
  unfold renderOption, itemHeight. simpl actualIndex. simpl top. simpl height.
  lia.
Qed.

Lemma rows_tile_witness :
  height (renderOption (Example.props 1 40 30) (state Example.opened)
            (SelectOption.make (Example.number 20) "item") 0) = itemHeight
  /\ top (renderOption (Example.props 1 40 30) (state Example.opened)
            (SelectOption.make (Example.number 20) "item") 0) = 20 * itemHeight.
Proof.
  destruct (rows_tile (Example.props 1 40 30) (state Example.opened) 0
              (renderOption (Example.props 1 40 30) (state Example.opened)
                 (SelectOption.make (Example.number 20) "item") 0) eq_refl)
    as (Hh & Ht & _).
  split; [exact Hh | exact Ht].
Defined.

(** X8.  A rendered row that is marked selected never lies before the
    position [findIndex] reports, and lies exactly there when values are
    unique: the highlighted row is then the option the control names. *)
Theorem selected_row_position (p : SelectProps) (s : State) (r : OptionRow) :
  In r (renderedRows p s) ->
  isSelected r = true ->
  0 <= selectedIndex p <= actualIndex r
  /\ (uniqueValues (elements (options p)) -> actualIndex r = selectedIndex p).
Proof.
  intros Hin Hsel.
  destruct (renderedRows_selected p s r Hin) as (i & o & Hat & Hi & _ & Hm).
  rewrite Hsel in Hm. symmetry in Hm.
  assert (Hino : In o (elements (options p))).
  { apply at_some in Hat as [_ Hat]. eapply nth_error_In. exact Hat. }
  destruct (find_some_In (matches (value p)) (elements (options p)) o Hino Hm)
    as (y & Hfind & _ & _).
  pose proof (selected_firstMatch p y Hfind) as F.
  destruct (firstMatch_selected p _ y F) as (_ & _ & Hk0).
  destruct F as (_ & _ & Hbefore).
  split.
  - split; [exact Hk0 | ].
    destruct (Z.le_gt_cases (selectedIndex p) (actualIndex r)) as [Hle | Hgt];
      [exact Hle | ].
    apply at_some in Hat as Hat'. destruct Hat' as [Hi0 _].
    rewrite (Hbefore i o) in Hm; [discriminate | lia | exact Hat].
  - intros Hu. pose proof (uniqueValues_firstMatch p i o Hu Hat Hm) as F'.
    destruct (firstMatch_selected p i o F') as (_ & Hk & _). congruence.
Qed.

Lemma selected_row_position_witness :
  0 <= selectedIndex Example.duplicated <= 2
  /\ (uniqueValues (elements (options Example.duplicated)) ->
      2 = selectedIndex Example.duplicated).
Proof.
  apply (selected_row_position Example.duplicated (state Example.openedDuplicated)
           (renderOption Example.duplicated (state Example.openedDuplicated)
              (SelectOption.make (Example.number 1) "B") 2)).
  - vm_compute. right. right. left. reflexivity.
  - reflexivity.
Defined.

(** X9.  Opening the widget on a value that option [k] carries puts the row of
    option [k] on screen, marked selected, at the very offset the dropdown
    is scrolled to. *)
Theorem open_shows_selected_row (h : Host) (w : World) (p : SelectProps)
    (k : Z) (opt : SelectOption.t) :
  mounted w = Some p ->
  isOpen (state w) = false ->
  firstMatch p k opt ->
  exists w' r,
    step h (Click TControl) w = Returned tt w'
    /\ In r (rowsOnScreen w')
    /\ actualIndex r = k
    /\ isSelected r = true
    /\ text r = SelectOption.label opt
    /\ dropdownRef w' = Some (inject_Z (top r)).
Proof.
  intros Hm Ho F. destruct (firstMatch_selected p k opt F) as (_ & Hk & Hk0).
  destruct F as (Hat & Hmatch & _).
  destruct (open_step h w p Hm Ho) as (w' & Hs & Hst & Hd & _ & Hm'); [lia | ].
  assert (Hcount : k < optionCount p).
  { apply at_some in Hat as [_ Hat].
    assert (Hlt : (Z.to_nat k < List.length (elements (options p)))%nat)
      by (apply nth_error_Some; congruence).
    unfold optionCount. lia. }
  assert (Hopen : isOpen (state w') = true) by (rewrite Hst; reflexivity).
  assert (Hstart : visibleStartIndex (state w') = Z.max 0 (k - visibleItems / 2))
    by (rewrite Hst, Hk; reflexivity).
  pose proof (renderedRows_isWindow p (state w')) as Hwin.
  rewrite <- (rowsOnScreen_open w' p Hm' Hopen) in Hwin.
  assert (Hrange : 0 <= visibleStartIndex (state w') <= optionCount p).
  { rewrite Hstart. change (visibleItems / 2) with 5. lia. }
  specialize (Hwin Hrange).
  destruct (proj2 (isWindow_indices p _ _ _ k Hwin)) as (r & Hin & Hshow).
  { unfold visibleOptionsStartIndex, visibleOptionsEndIndex.
    rewrite Hstart. change (visibleItems / 2) with 5.
    unfold visibleItems, bufferItems. lia. }
  destruct Hshow as (opt' & Hat' & Hidx & Htop & Htext & _ & Hsel).
  assert (opt' = opt) by congruence. subst opt'.
  exists w', r. split; [exact Hs | ]. split; [exact Hin | ]. split; [exact Hidx | ].
  split; [rewrite Hsel; exact Hmatch | ]. split; [exact Htext | ].
  rewrite Hd, Htop, Hk. reflexivity.
Qed.

Lemma open_shows_selected_row_witness :
  exists w' r,
    step Example.host (Click TControl) Example.closedDuplicated = Returned tt w'
    /\ In r (rowsOnScreen w')
    /\ actualIndex r = 1
    /\ isSelected r = true
    /\ text r = "A"%string
    /\ dropdownRef w' = Some (inject_Z (top r)).
Proof.
  exact (open_shows_selected_row Example.host Example.closedDuplicated
           Example.duplicated 1 _ eq_refl eq_refl duplicated_firstMatch).
Defined.

(** ** From a click to the control *)

(** X10.  When values are unique and the parent stores the value a row hands to
    [onChange], the control shows the text of that row, provided the value
    is strictly equal to itself. *)
Theorem chosen_value_is_displayed (p : SelectProps) (s s' : State) (r : OptionRow) :
  In r (renderedRows p s) ->
  uniqueValues (elements (options p)) ->
  Js.strict_equals (onClickValue r) (onClickValue r) = true ->
  controlText (render (withValue (onClickValue r) p) s') = text r.
Proof.
  intros Hin Hu Hrefl. apply In_nth_error in Hin as [j Hj].
  apply renderedRows_nth_error in Hj as (o & Hat & _ & _ & Htext & Hv & _).
  rewrite Hv in *. rewrite Htext.
  assert (F : firstMatch (withValue (SelectOption.value o) p)
                (visibleOptionsStartIndex s + Z.of_nat j) o).
  { apply uniqueValues_firstMatch; [exact Hu | exact Hat | exact Hrefl]. }
  destruct (firstMatch_selected _ _ _ F) as (Hs & _).
  unfold render. simpl. rewrite Hs. reflexivity.
Qed.

Lemma softWrap_unique : uniqueValues AceSettings.softWrapOptions.
Proof.
  intros i j oi oj Hi Hj.
  apply at_some in Hi as [Hi0 Hi], Hj as [Hj0 Hj].
  assert (Bi : (Z.to_nat i < 5)%nat)
    by (apply (nth_error_Some AceSettings.softWrapOptions); congruence).
  assert (Bj : (Z.to_nat j < 5)%nat)
    by (apply (nth_error_Some AceSettings.softWrapOptions); congruence).
  assert (Ei : i = Z.of_nat (Z.to_nat i)) by lia.
  assert (Ej : j = Z.of_nat (Z.to_nat j)) by lia.
  rewrite Ei, Ej. clear Ei Ej Hi0 Hj0.
  destruct (Z.to_nat i) as [ | [ | [ | [ | [ | ni]]]]]; try lia;
    destruct (Z.to_nat j) as [ | [ | [ | [ | [ | nj]]]]]; try lia;
    simpl in Hi, Hj; injection Hi as <-; injection Hj as <-;
    simpl; intros E; try reflexivity; discriminate E.
Defined.

Lemma chosen_value_is_displayed_witness :
  controlText
    (render (withValue (Js.VString "free") (AceSettings.softWrapSelect (Js.VBoolean true)))
       initialState)
  = "Free"%string.
Proof.
  apply (chosen_value_is_displayed (AceSettings.softWrapSelect (Js.VBoolean true))
           (setIsOpen true initialState) initialState
           (renderOption (AceSettings.softWrapSelect (Js.VBoolean true))
              (setIsOpen true initialState)
              (SelectOption.make (Js.VString "free") "Free") 1)).
  - right. left. reflexivity.
  - exact softWrap_unique.
  - reflexivity.
Defined.

Lemma strict_equals_NaN (x : Js.value) :
  Js.strict_equals x (Js.VNumber Js.NaN) = false.
Proof.
  destruct x as [ | | b | n | t | a]; try reflexivity.
  destruct n; reflexivity.
Qed.

(** X11.  The value [NaN] selects nothing: the control shows the placeholder,
    no index is reported, and no rendered row is marked, also when an
    option carries [NaN] and has just been chosen. *)
Theorem nan_selects_nothing (p : SelectProps) (s : State) :
  value p = Js.VNumber Js.NaN ->
  controlText (render p s) = placeholder p
  /\ selectedIndex p = -1
  /\ (forall r, In r (renderedRows p s) -> isSelected r = false).
Proof.
  intros Hv.
  assert (Hnone : forall opt, In opt (elements (options p)) ->
            matches (value p) opt = false).
  { intros opt _. unfold matches. rewrite Hv. apply strict_equals_NaN. }
  split; [ | split].
  - unfold render. simpl.
    assert (Hs : selectedOption p = None) by (apply find_none; exact Hnone).
    rewrite Hs. reflexivity.
  - apply no_match_index. exact Hnone.
  - intros r Hin. destruct (renderedRows_selected p s r Hin) as (i & o & Hat & _ & _ & Hm).
    rewrite Hm. apply Hnone. apply at_some in Hat as [_ Hat].
    eapply nth_error_In. exact Hat.
Qed.

Lemma nan_selects_nothing_witness :
  controlText (render (withValue (Js.VNumber Js.NaN) Example.single) initialState)
  = placeholder Example.single
  /\ selectedIndex (withValue (Js.VNumber Js.NaN) Example.single) = -1.
Proof.
  destruct (nan_selects_nothing (withValue (Js.VNumber Js.NaN) Example.single)
              initialState eq_refl) as (Ht & Hi & _).
  split; [exact Ht | exact Hi].
Defined.

(** ** Calls of [onChange] *)

Lemma onChangeCalls_app (l l' : list Call) :
  onChangeCalls (l ++ l') = onChangeCalls l ++ onChangeCalls l'.
Proof.
  induction l as [ | c r IH]; simpl; [reflexivity | ].
  destruct c; simpl; rewrite IH; reflexivity.
Qed.

Ltac calls_auto :=
  keeps_steps; unfold changeCalls; simpl;
  rewrite ?onChangeCalls_app; simpl; rewrite ?app_nil_r;
  try reflexivity; auto with keeps.

Lemma attachDropdownRef_keeps_calls : keeps changeCalls attachDropdownRef.
Proof.
  unfold attachDropdownRef. apply keeps_modify. intros w.
  destruct (isOpen (state w)); [destruct (dropdownRef w) | ]; reflexivity.
Qed.

Lemma scrollToSelected_keeps_calls (p : SelectProps) :
  keeps changeCalls (scrollToSelected p).
Proof. unfold scrollToSelected. calls_auto. Qed.

Lemma measureOptions_keeps_calls (h : Host) (p : SelectProps) :
  keeps changeCalls (measureOptions h p).
Proof.
  unfold measureOptions, createElement, readComputedStyle, appendChild, removeChild.
  calls_auto.
Qed.

#[local] Hint Resolve attachDropdownRef_keeps_calls scrollToSelected_keeps_calls
  measureOptions_keeps_calls : keeps.

Lemma commit_keeps_calls (h : Host) (pp : SelectProps) (ps : State) :
  keeps changeCalls (commit h pp ps).
Proof. unfold commit. calls_auto. Qed.

#[local] Hint Resolve commit_keeps_calls : keeps.

Lemma setState_keeps_calls (h : Host) (f : State -> State) :
  keeps changeCalls (setState h f).
Proof. unfold setState. calls_auto. Qed.

#[local] Hint Resolve setState_keeps_calls : keeps.

Lemma handleClickOutside_keeps_calls (h : Host) (t : Target) :
  keeps changeCalls (handleClickOutside h t).
Proof. unfold handleClickOutside. calls_auto. Qed.

#[local] Hint Resolve handleClickOutside_keeps_calls : keeps.

Lemma mount_keeps_calls (h : Host) (p : SelectProps) : keeps changeCalls (mount h p).
Proof.
  unfold mount, addClickOutsideListener. calls_auto.
Qed.

Lemma unmount_keeps_calls : keeps changeCalls unmount.
Proof. unfold unmount, removeClickOutsideListener. calls_auto. Qed.

Lemma update_keeps_calls (h : Host) (p : SelectProps) : keeps changeCalls (update h p).
Proof. unfold update. calls_auto. Qed.

Lemma scroll_keeps_calls (h : Host) (x : Q) : keeps changeCalls (scroll h x).
Proof. unfold scroll, handleScroll. calls_auto. Qed.

Lemma dispatchMouseDown_keeps_calls (h : Host) (t : Target) :
  keeps changeCalls (dispatchMouseDown h t).
Proof.
  unfold dispatchMouseDown. apply keeps_get_bind. intros w0.
  apply keeps_forEach. intros [ | id]; simpl; calls_auto.
Qed.

(** X12.  [onChange] is called by a click on a rendered row and by nothing
    else: mounting, updating, unmounting, scrolling, pointer-downs and
    clicks elsewhere leave the sequence of calls as it was, and a click on
    a row adds at most one call. *)
Theorem onChange_only_from_option_clicks (h : Host) (e : Event) (w w' : World) :
  step h e w = Returned tt w' ->
  match e with
  | Click (TOption _) =>
      onChangeCalls (log w') = onChangeCalls (log w)
      \/ exists v, onChangeCalls (log w') = onChangeCalls (log w) ++ [v]
  | _ => onChangeCalls (log w') = onChangeCalls (log w)
  end.
Proof.
  intros Hs.
  assert (K : forall m : M unit, keeps changeCalls m ->
                m w = Returned tt w' -> onChangeCalls (log w') = onChangeCalls (log w)).
  { intros m Hk Hm. specialize (Hk w). rewrite Hm in Hk. exact Hk. }
  destruct e as [p | p | | t | t | x]; simpl in Hs.
  - exact (K _ (mount_keeps_calls h p) Hs).
  - exact (K _ (update_keeps_calls h p) Hs).
  - exact (K _ unmount_keeps_calls Hs).
  - exact (K _ (dispatchMouseDown_keeps_calls h t) Hs).
  - destruct t as [ | | | i].
    + injection Hs as <-. reflexivity.
    + unfold click, bind, get in Hs. exact (K _ (setState_keeps_calls h _) Hs).
    + injection Hs as <-. reflexivity.
    + unfold click, bind, get in Hs. destruct (rowAt w i) as [r | ].
      * right. exists (onClickValue r). unfold modify in Hs.
        pose proof (setState_keeps_calls h (setIsOpen false)
                      (record (OnChange (onClickValue r)) w)) as Hk.
        rewrite Hs in Hk. unfold changeCalls in Hk. rewrite Hk. simpl.
        rewrite onChangeCalls_app. reflexivity.
      * left. injection Hs as <-. reflexivity.
  - exact (K _ (scroll_keeps_calls h x) Hs).
Qed.

Lemma onChange_only_from_option_clicks_witness :
  onChangeCalls (log Scenario.scrolled) = onChangeCalls (log Example.opened).
Proof.
  exact (onChange_only_from_option_clicks Example.host (Scroll (12345 # 10))
           Example.opened Scenario.scrolled eq_refl).
Defined.

Lemma control_click_keeps_mounted (h : Host) (w : World) (p : SelectProps) :
  mounted w = Some p ->
  exists w', step h (Click TControl) w = Returned tt w' /\ mounted w' = Some p.
Proof.
  intros Hm.
  unfold step, click, bind, get, setState, bind, get, modify. rewrite Hm.
  unfold commit, bind, get. simpl. rewrite Hm, Nat.eqb_refl.
  unfold attachDropdownRef, modify, scrollToSelected, bind, get, modify, ret.
  simpl.
  destruct (isOpen (state w)) eqn:Ho; simpl;
    destruct (dropdownRef w) eqn:Hd; simpl; try rewrite Hd;
    destruct (0 <=? selectedIndex p);
    (eexists; split; [reflexivity | ]; simpl; exact Hm).
Qed.

(** ** A window start that outlived its list *)

(** X4.  A closed widget whose window start lies past the end of its current
    list by the buffer, and whose value matches no option, opens with a
    spacer of the full height of the list and not a single row: the new
    dropdown element is at scroll offset [0] while the window start is
    still the old one. *)
Theorem stale_window_opens_blank (h : Host) (w : World) (p : SelectProps) :
  mounted w = Some p ->
  isOpen (state w) = false ->
  dropdownRef w = None ->
  (forall opt, In opt (elements (options p)) -> matches (value p) opt = false) ->
  optionCount p <= visibleStartIndex (state w) - bufferItems ->
  exists w',
    step h (Click TControl) w = Returned tt w'
    /\ isOpen (state w') = true
    /\ dropdownRef w' = Some (inject_Z 0)
    /\ visibleStartIndex (state w') = visibleStartIndex (state w)
    /\ view w'
       = Some (render p (setIsOpen true (state w)))
    /\ dropdown (render p (setIsOpen true (state w)))
       = Some {| dropdownWidth :=
                   if 0 <? maxDropdownWidth (state w)
                   then Px (maxDropdownWidth (state w)) else Auto;
                 containerHeight := optionCount p * itemHeight;
                 rows := [] |}.
Proof.
  intros Hm Ho Hd Hnone Hpast.
  destruct (reopen_without_selection_keeps_window h w p Hm Ho Hd Hnone)
    as (w' & Hs & Hst & Hd' & _).
  assert (Hm' : mounted w' = Some p).
  { destruct (control_click_keeps_mounted h w p Hm) as (w2 & Hs2 & Hm2).
    congruence. }
  exists w'. split; [exact Hs | ]. rewrite Hst. split; [reflexivity | ].
  split; [exact Hd' | ]. split; [reflexivity | ]. split.
  - unfold view. rewrite Hm', Hst. reflexivity.
  - unfold render. simpl. unfold totalHeight.
    assert (Hrows : renderedRows p (setIsOpen true (state w)) = []).
    { assert (Hc : 0 <= optionCount p) by (unfold optionCount; lia).
      assert (Hlen := renderedRows_length p (setIsOpen true (state w))).
      simpl in Hlen.
      unfold visibleOptionsEndIndex, visibleOptionsStartIndex, visibleItems,
        bufferItems in *. simpl in Hlen.
      destruct (renderedRows p (setIsOpen true (state w))); [reflexivity | ].
      simpl in Hlen. lia. }
    rewrite Hrows. reflexivity.
Qed.

Lemma stale_window_opens_blank_witness :
  exists w',
    step Example.host (Click TControl) Scenario.listReplaced = Returned tt w'
    /\ isOpen (state w') = true
    /\ dropdownRef w' = Some (inject_Z 0)
    /\ visibleStartIndex (state w') = visibleStartIndex (state Scenario.listReplaced)
    /\ view w'
       = Some (render (Example.props 2 3 99) (setIsOpen true (state Scenario.listReplaced)))
    /\ dropdown (render (Example.props 2 3 99)
                   (setIsOpen true (state Scenario.listReplaced)))
       = Some {| dropdownWidth :=
                   if 0 <? maxDropdownWidth (state Scenario.listReplaced)
                   then Px (maxDropdownWidth (state Scenario.listReplaced)) else Auto;
                 containerHeight := optionCount (Example.props 2 3 99) * itemHeight;
                 rows := [] |}.
Proof.
  apply (stale_window_opens_blank Example.host Scenario.listReplaced
           (Example.props 2 3 99) eq_refl eq_refl eq_refl).
  - apply find_none. reflexivity.
  - vm_compute. discriminate.
Defined.

(** ** The page after the widget has run *)

Lemma tidy_ret {A : Type} (a : A) : tidy (ret a).
Proof. intros w Hf. split; [reflexivity | exact Hf]. Qed.

Lemma tidy_throw {A : Type} (e : Exception) : tidy (@throw A e).
Proof. intros w Hf. split; [reflexivity | exact Hf]. Qed.

Lemma tidy_modify (f : World -> World) :
  (forall w, bodyChildren (f w) = bodyChildren w /\ nextNode (f w) = nextNode w) ->
  tidy (modify f).
Proof.
  intros Hf w Hfresh. destruct (Hf w) as [Hb Hn]. unfold modify, fresh in *. simpl.
  rewrite Hb, Hn. auto.
Qed.

Lemma tidy_bind {A B : Type} (m : M A) (k : A -> M B) :
  tidy m -> (forall a, tidy (k a)) -> tidy (bind m k).
Proof.
  intros Hm Hk w Hf. unfold bind. specialize (Hm w Hf).
  destruct (m w) as [a w1 | e w1]; simpl in Hm; [ | exact Hm].
  destruct Hm as [Hb Hf1]. destruct (Hk a w1 Hf1) as [Hb2 Hf2].
  split; [congruence | exact Hf2].
Qed.

Lemma tidy_get_bind {B : Type} (k : World -> M B) :
  (forall w0, tidy (k w0)) -> tidy (bind get k).
Proof.
  intros Hk. apply tidy_bind; [ | exact Hk].
  intros w Hf. split; [reflexivity | exact Hf].
Qed.

Lemma tidy_forEach {A : Type} (l : list A) (f : A -> M unit) :
  (forall x, tidy (f x)) -> tidy (forEach l f).
Proof.
  intros Hf. induction l as [ | x r IH]; simpl.
  - apply tidy_ret.
  - apply tidy_bind; [apply Hf | intros _; exact IH].
Qed.

Lemma measureOptions_tidy (h : Host) (p : SelectProps) : tidy (measureOptions h p).
Proof.
  intros w Hf.
  destruct (Z.ltb_spec 0 (optionCount p)) as [Hlen | Hlen].
  - destruct (getComputedStyle h) as [cs | ] eqn:Hcs.
    + destruct (measureOptions_pass h p cs w Hcs Hlen Hf) as (w' & -> & Hm).
      destruct Hm as [Mb _ _ Mn _ _ _]. simpl. split; [exact Mb | ].
      unfold fresh in *. rewrite Mb, Mn.
      eapply Forall_impl; [ | exact Hf]. simpl. intros a Ha. lia.
    + rewrite (measureOptions_throws h p w Hcs Hlen). simpl.
      split; [reflexivity | ]. unfold fresh in *. simpl.
      eapply Forall_impl; [ | exact Hf]. simpl. intros a Ha. lia.
  - unfold measureOptions. apply Z.ltb_ge in Hlen. rewrite Hlen.
    split; [reflexivity | exact Hf].
Qed.

Create HintDb tidy.

#[local] Hint Resolve measureOptions_tidy : tidy.

Ltac tidy_steps :=
  repeat lazymatch goal with
    | |- tidy (ret _) => apply tidy_ret
    | |- tidy (throw _) => apply tidy_throw
    | |- tidy (bind get _) => apply tidy_get_bind; intros ?
    | |- tidy (bind _ _) => apply tidy_bind; [ | intros ? ]
    | |- tidy (modify _) => apply tidy_modify; intros ?; simpl; split; reflexivity
    | |- tidy (match ?x with _ => _ end) => destruct x
    end;
  auto with tidy.

Lemma attachDropdownRef_tidy : tidy attachDropdownRef.
Proof.
  unfold attachDropdownRef. apply tidy_modify. intros w.
  destruct (isOpen (state w)); [destruct (dropdownRef w) | ]; split; reflexivity.
Qed.

#[local] Hint Resolve attachDropdownRef_tidy : tidy.

Lemma scrollToSelected_tidy (p : SelectProps) : tidy (scrollToSelected p).
Proof. unfold scrollToSelected. tidy_steps. Qed.

#[local] Hint Resolve scrollToSelected_tidy : tidy.

Lemma commit_tidy (h : Host) (pp : SelectProps) (ps : State) : tidy (commit h pp ps).
Proof. unfold commit. tidy_steps. Qed.

#[local] Hint Resolve commit_tidy : tidy.

Lemma setState_tidy (h : Host) (f : State -> State) : tidy (setState h f).
Proof. unfold setState. tidy_steps. Qed.

#[local] Hint Resolve setState_tidy : tidy.

Lemma step_tidy (h : Host) (e : Event) : tidy (step h e).
Proof.
  destruct e as [p | p | | t | t | x]; simpl.
  - unfold mount, addClickOutsideListener. tidy_steps.
  - unfold update. tidy_steps.
  - unfold unmount, removeClickOutsideListener. tidy_steps.
  - unfold dispatchMouseDown. apply tidy_get_bind. intros w0.
    apply tidy_forEach. intros [ | id]; simpl; [ | apply tidy_ret].
    unfold handleClickOutside. tidy_steps.
  - unfold click. tidy_steps.
  - unfold scroll, handleScroll. tidy_steps.
Qed.

(** X13.  Whatever events reach the widget, in whatever order, and whether or
    not one of them ends in an exception, the children of the document
    body are afterwards what they were before: no measuring probe stays
    behind. *)
Theorem page_left_as_found (h : Host) (es : list Event) (w : World) :
  fresh w ->
  bodyChildren (outcomeWorld (forEach es (step h) w)) = bodyChildren w.
Proof.
  intros Hf. apply (tidy_forEach es (step h) (step_tidy h) w Hf).
Qed.

Lemma page_left_as_found_witness :
  bodyChildren
    (outcomeWorld
       (forEach [Mount (Example.props 1 40 30); Click TControl;
                 Update (Example.props 2 3 30)]
          (step Example.brokenHost) Example.page))
  = bodyChildren Example.page.
Proof.
  apply (page_left_as_found Example.brokenHost).
  repeat constructor.
Defined.

(** ** Mounting and unmounting *)

Lemma removeFirstOwn_added (l : list Listener) :
  filter isOwnListener l = [] ->
  removeFirstOwn (l ++ [HandleClickOutside]) = l.
Proof.
  induction l as [ | x r IH]; simpl; [reflexivity | ].
  destruct (isOwnListener x) eqn:E; [discriminate | ].
  intros H. rewrite IH by exact H. reflexivity.
Qed.

(** X14.  A widget that is mounted and then unmounted leaves the document with
    the listeners it had, in the same order, and with the same body; it
    has called [onChange] not once. *)
Theorem mount_unmount_round_trip (h : Host) (p : SelectProps) (w w1 : World) :
  reachable h w ->
  mounted w = None ->
  step h (Mount p) w = Returned tt w1 ->
  exists w2,
    step h Unmount w1 = Returned tt w2
    /\ mousedownListeners w2 = mousedownListeners w
    /\ bodyChildren w2 = bodyChildren w
    /\ mounted w2 = None
    /\ dropdownRef w2 = None
    /\ onChangeCalls (log w2) = onChangeCalls (log w).
Proof.
  intros Hr Hm Hs. pose proof (reachable_Inv h w Hr) as HI.
  assert (Hl : mousedownListeners w1 = mousedownListeners w ++ [HandleClickOutside]).
  { apply (step_listeners h (Mount p) w w1); [simpl; rewrite Hm; reflexivity | exact Hs]. }
  assert (Hm1 : mounted w1 = Some p).
  { change (step h (Mount p) w) with (mount h p w) in Hs. rewrite mount_measure in Hs.
    pose proof (measureOptions_keeps_mounted h p) as K.
    match type of Hs with ?m ?w0 = _ => specialize (K w0) end.
    rewrite Hs in K. exact K. }
  assert (Hb : bodyChildren w1 = bodyChildren w).
  { pose proof (step_tidy h (Mount p) w (inv_nodes w HI)) as [Hb _].
    rewrite Hs in Hb. exact Hb. }
  assert (Hc : onChangeCalls (log w1) = onChangeCalls (log w)).
  { pose proof (mount_keeps_calls h p w) as K.
    change (step h (Mount p) w) with (mount h p w) in Hs. rewrite Hs in K. exact K. }
  assert (Hown : filter isOwnListener (mousedownListeners w) = []).
  { pose proof (inv_listener w HI) as Hcount. rewrite Hm in Hcount.
    unfold ownListeners in Hcount.
    destruct (filter isOwnListener (mousedownListeners w)); [reflexivity | discriminate]. }
  simpl. unfold unmount, bind, get. rewrite Hm1.
  unfold removeClickOutsideListener, modify.
  eexists. split; [reflexivity | ]. simpl.
  rewrite Hl, (removeFirstOwn_added _ Hown). auto.
Qed.

Lemma mount_unmount_round_trip_witness :
  exists w2,
    step Example.host Unmount Example.closed = Returned tt w2
    /\ mousedownListeners w2 = mousedownListeners Example.page
    /\ bodyChildren w2 = bodyChildren Example.page
    /\ mounted w2 = None
    /\ dropdownRef w2 = None
    /\ onChangeCalls (log w2) = onChangeCalls (log Example.page).
Proof.
  apply (mount_unmount_round_trip Example.host (Example.props 1 40 30)
           Example.page Example.closed).
  - apply reachable_initial.
  - reflexivity.
  - reflexivity.
Defined.

(** * The settings panel *)

(** ** The soft-wrap select *)

(** X17.  For every setting the type of [softWrap] admits, the soft-wrap select
    shows the label of one of its options and never the placeholder:
    booleans show as the two wrap options, and every number shows as
    "Print Margin". *)
Theorem softWrap_shows_a_label (softWrap : Js.value) (s : State) :
  AceSettings.validSoftWrap softWrap ->
  controlText (render (AceSettings.softWrapSelect softWrap) s)
  = match softWrap with
    | Js.VBoolean true => "Wrap Enabled"
    | Js.VBoolean false => "Wrap Disabled"
    | Js.VNumber _ => "Print Margin"
    | Js.VString t =>
        if String.eqb t "off" then "Off"
        else if String.eqb t "free" then "Free"
        else "Print Margin"
    | _ => defaultPlaceholder
    end%string.
Proof.
  destruct softWrap as [ | | b | n | t | a]; simpl; try contradiction.
  - intros _. destruct b; reflexivity.
  - intros _. reflexivity.
  - intros [-> | [-> | ->]]; reflexivity.
Qed.

Lemma softWrap_shows_a_label_witness :
  controlText (render (AceSettings.softWrapSelect (Js.VNumber (Js.Finite (80 # 1))))
                 initialState)
  = "Print Margin"%string.
Proof.
  exact (softWrap_shows_a_label (Js.VNumber (Js.Finite (80 # 1))) initialState I).
Defined.

Lemma softWrap_row_option (softWrap : Js.value) (s : State) (r : OptionRow) :
  In r (renderedRows (AceSettings.softWrapSelect softWrap) s) ->
  exists o, In o AceSettings.softWrapOptions
            /\ onClickValue r = SelectOption.value o
            /\ text r = SelectOption.label o.
Proof.
  intros Hin. apply In_nth_error in Hin as [j Hj].
  apply renderedRows_nth_error in Hj as (o & Hat & _ & _ & Htext & Hv & _).
  exists o. split; [ | auto].
  apply at_some in Hat as [_ Hat]. eapply nth_error_In. exact Hat.
Qed.

(** X18.  Choosing a row of the soft-wrap select stores a setting of the
    admitted type, and the select rendered for the stored setting shows
    the text of the chosen row: "true" and "false" are stored as booleans
    and shown again as the rows they came from. *)
Theorem softWrap_choice_round_trip (softWrap : Js.value) (s s' : State)
    (r : OptionRow) :
  In r (renderedRows (AceSettings.softWrapSelect softWrap) s) ->
  AceSettings.validSoftWrap (AceSettings.softWrapNewValue (onClickValue r))
  /\ AceSettings.softWrapSelectValue (AceSettings.softWrapNewValue (onClickValue r))
     = onClickValue r
  /\ controlText
       (render (AceSettings.softWrapSelect
                  (AceSettings.softWrapNewValue (onClickValue r))) s')
     = text r.
Proof.
  intros Hin. destruct (softWrap_row_option softWrap s r Hin) as (o & Ho & -> & ->).
  simpl in Ho.
  destruct Ho as [<- | [<- | [<- | [<- | [<- | []]]]]]; simpl;
    repeat split; auto.
Qed.

Lemma softWrap_choice_round_trip_witness :
  AceSettings.validSoftWrap (AceSettings.softWrapNewValue (Js.VString "true"))
  /\ AceSettings.softWrapSelectValue (AceSettings.softWrapNewValue (Js.VString "true"))
     = Js.VString "true"
  /\ controlText
       (render (AceSettings.softWrapSelect
                  (AceSettings.softWrapNewValue (Js.VString "true"))) initialState)
     = "Wrap Enabled"%string.
Proof.
  apply (softWrap_choice_round_trip (Js.VString "off") (setIsOpen true initialState)
           initialState
           (renderOption (AceSettings.softWrapSelect (Js.VString "off"))
              (setIsOpen true initialState)
              (SelectOption.make (Js.VString "true") "Wrap Enabled") 3)).
  do 3 right. left. reflexivity.
Defined.

(** X19.  A stored setting that is a boolean or one of the three words comes
    back unchanged when the row shown for it is chosen again, but a
    numeric setting does not: its row is "Print Margin", and choosing it
    stores the word ["printmargin"] in place of the number. *)
Theorem softWrap_number_is_not_kept (softWrap : Js.value) :
  AceSettings.validSoftWrap softWrap ->
  AceSettings.softWrapNewValue (AceSettings.softWrapSelectValue softWrap)
  = match softWrap with
    | Js.VNumber _ => Js.VString "printmargin"
    | _ => softWrap
    end.
Proof.
  destruct softWrap as [ | | b | n | t | a]; simpl; try contradiction.
  - intros _. destruct b; reflexivity.
  - intros _. reflexivity.
  - intros [-> | [-> | ->]]; reflexivity.
Qed.

Lemma softWrap_number_is_not_kept_witness :
  AceSettings.softWrapNewValue
    (AceSettings.softWrapSelectValue (Js.VNumber (Js.Finite (80 # 1))))
  = Js.VString "printmargin".
Proof.
  exact (softWrap_number_is_not_kept (Js.VNumber (Js.Finite (80 # 1))) I).
Defined.

(** ** Font suggestions *)

Lemma existsb_eqb_In (x : string) (s : list string) :
  existsb (String.eqb x) s = true <-> In x s.
Proof.
  rewrite existsb_exists. split.
  - intros (y & Hy & E). apply String.eqb_eq in E. subst. exact Hy.
  - intros Hx. exists x. split; [exact Hx | apply String.eqb_refl].
Qed.

Lemma setAdd_In (x y : string) (s : list string) :
  In y (AceSettings.setAdd x s) <-> y = x \/ In y s.
Proof.
  unfold AceSettings.setAdd. destruct (existsb (String.eqb x) s) eqn:E.
  - apply existsb_eqb_In in E. split; [auto | ]. intros [-> | H]; assumption.
  - rewrite in_app_iff. simpl. split.
    + intros [H | [H | []]]; auto.
    + intros [-> | H]; auto.
Qed.

Lemma setAdd_NoDup (x : string) (s : list string) :
  NoDup s -> NoDup (AceSettings.setAdd x s).
Proof.
  intros Hs. unfold AceSettings.setAdd. destruct (existsb (String.eqb x) s) eqn:E.
  - exact Hs.
  - assert (Hx : ~ In x s).
    { intros Hin. apply existsb_eqb_In in Hin. congruence. }
    apply NoDup_app; [exact Hs | repeat constructor; intros [] | ].
    intros a Ha [<- | []]. exact (Hx Ha).
Qed.

Lemma addAll_In (xs : list string) (y : string) (s : list string) :
  In y (AceSettings.addAll xs s) <-> In y xs \/ In y s.
Proof.
  unfold AceSettings.addAll. revert s.
  induction xs as [ | x r IH]; intros s; simpl.
  - tauto.
  - rewrite IH, setAdd_In. intuition congruence.
Qed.

Lemma addAll_NoDup (xs s : list string) :
  NoDup s -> NoDup (AceSettings.addAll xs s).
Proof.
  unfold AceSettings.addAll. revert s.
  induction xs as [ | x r IH]; intros s Hs; simpl; [exact Hs | ].
  apply IH, setAdd_NoDup, Hs.
Qed.

Lemma addLocalFonts_In (fonts : list AceSettings.FontData) (y : string)
    (s : list string) :
  In y (AceSettings.addLocalFonts fonts s)
  <-> In y s
      \/ exists font, In font fonts /\ AceSettings.family font = y /\ y <> EmptyString.
Proof.
  unfold AceSettings.addLocalFonts. revert s.
  induction fonts as [ | f r IH]; intros s; simpl.
  - split; [auto | ]. intros [H | (font & [] & _)]. exact H.
  - rewrite IH. destruct (AceSettings.family f) eqn:Ef.
    + split.
      * intros [H | (font & Hin & Hfam)]; [auto | ].
        right. exists font. auto.
      * intros [H | (font & [<- | Hin] & E & Hne)]; [auto | | ].
        -- congruence.
        -- right. exists font. auto.
    + rewrite setAdd_In. split.
      * intros [[-> | H] | (font & Hin & Hfam)]; [ | auto | ].
        -- right. exists f. rewrite Ef. repeat split; [auto | discriminate].
        -- right. exists font. auto.
      * intros [H | (font & [<- | Hin] & E & Hne)]; [auto | | ].
        -- left. left. congruence.
        -- right. exists font. auto.
Qed.

Lemma addLocalFonts_NoDup (fonts : list AceSettings.FontData) (s : list string) :
  NoDup s -> NoDup (AceSettings.addLocalFonts fonts s).
Proof.
  unfold AceSettings.addLocalFonts. revert s.
  induction fonts as [ | f r IH]; intros s Hs; simpl; [exact Hs | ].
  apply IH. destruct (AceSettings.family f); [exact Hs | apply setAdd_NoDup, Hs].
Qed.

Lemma insertSorted_In (compare : string -> string -> Z) (x y : string)
    (l : list string) :
  In y (AceSettings.insertSorted compare x l) <-> y = x \/ In y l.
Proof.
  induction l as [ | a r IH]; simpl.
  - intuition congruence.
  - destruct (0 <? compare x a); simpl; [rewrite IH | ]; intuition congruence.
Qed.

Lemma insertSorted_NoDup (compare : string -> string -> Z) (x : string)
    (l : list string) :
  ~ In x l -> NoDup l -> NoDup (AceSettings.insertSorted compare x l).
Proof.
  induction l as [ | a r IH]; simpl; intros Hx Hl.
  - repeat constructor. intros [].
  - destruct (0 <? compare x a).
    + inversion Hl as [ | a' r' Ha Hr]. subst. constructor.
      * rewrite insertSorted_In. intros [-> | H]; [apply Hx; auto | exact (Ha H)].
      * apply IH; [intros H; apply Hx; auto | exact Hr].
    + constructor; [exact Hx | exact Hl].
Qed.

Lemma sort_In (compare : string -> string -> Z) (y : string) (l : list string) :
  In y (AceSettings.sort compare l) <-> In y l.
Proof.
  unfold AceSettings.sort. induction l as [ | a r IH]; simpl; [tauto | ].
  rewrite insertSorted_In, IH. intuition congruence.
Qed.

Lemma sort_NoDup (compare : string -> string -> Z) (l : list string) :
  NoDup l -> NoDup (AceSettings.sort compare l).
Proof.
  unfold AceSettings.sort. induction 1 as [ | a r Ha Hr IH]; simpl; [constructor | ].
  apply insertSorted_NoDup; [ | exact IH].
  fold (AceSettings.sort compare r). rewrite sort_In. exact Ha.
Qed.

(** X20.  The font suggestions hold no font twice, and hold exactly the
    fallback fonts of the platform, the basic fallback fonts, the fonts of
    the current settings and, on the desktop application when the query
    for local fonts succeeds, the non-empty families it returns.  A query
    that is missing or fails takes nothing away: the fallback fonts and
    the fonts of the settings are suggested all the same. *)
Theorem font_suggestions (localeCompare : string -> string -> Z)
    (pf : AceSettings.Platform) (api : AceSettings.LocalFontAccess)
    (fontFamily : list string) :
  let suggestions := AceSettings.sortedFonts localeCompare pf api fontFamily in
  NoDup suggestions
  /\ (forall y,
        In y suggestions
        <-> In y (AceSettings.fallbackFonts pf)
            \/ In y AceSettings.getBasicFallbackFonts
            \/ In y fontFamily
            \/ (AceSettings.isDesktopApp pf = true
                /\ exists fonts font,
                     api = AceSettings.Resolves fonts /\ In font fonts
                     /\ AceSettings.family font = y /\ y <> EmptyString))
  /\ (forall y, In y (AceSettings.sortedFonts localeCompare pf AceSettings.Rejects fontFamily)
                <-> In y (AceSettings.sortedFonts localeCompare pf AceSettings.Missing
                            fontFamily)).
Proof.
  unfold AceSettings.sortedFonts, AceSettings.uniqueFonts.
  split; [ | split].
  - apply sort_NoDup, addAll_NoDup, addAll_NoDup.
    destruct (AceSettings.isDesktopApp pf); [ | constructor].
    destruct api; try constructor. apply addLocalFonts_NoDup. constructor.
  - intros y. rewrite sort_In, !addAll_In, in_app_iff.
    destruct (AceSettings.isDesktopApp pf).
    + destruct api as [ | | fonts].
      * simpl. split; [tauto | ].
        intros [H | [H | [H | (_ & fs & f & E & _)]]]; try tauto. discriminate.
      * simpl. split; [tauto | ].
        intros [H | [H | [H | (_ & fs & f & E & _)]]]; try tauto. discriminate.
      * rewrite addLocalFonts_In. simpl. split.
        -- intros [H | [[H | H] | [[] | (f & Hf & E & Hne)]]]; try tauto.
           do 3 right. split; [reflexivity | ]. exists fonts, f. auto.
        -- intros [H | [H | [H | (_ & fs & f & E & Hf & Hfam & Hne)]]]; try tauto.
           injection E as <-. right. right. right. exists f. auto.
    + simpl. split; [tauto | ].
      intros [H | [H | [H | (E & _)]]]; try tauto. discriminate.
  - intros y. rewrite !sort_In. destruct (AceSettings.isDesktopApp pf); reflexivity.
Qed.

(** * The settings tab *)

Lemma createdRoots_app (l l' : list SettingTab.Op) :
  SettingTab.createdRoots (l ++ l')
  = SettingTab.createdRoots l ++ SettingTab.createdRoots l'.
Proof.
  induction l as [ | o r IH]; simpl; [reflexivity | ].
  destruct o; simpl; rewrite IH; reflexivity.
Qed.

Lemma unmountedRoots_app (l l' : list SettingTab.Op) :
  SettingTab.unmountedRoots (l ++ l')
  = SettingTab.unmountedRoots l ++ SettingTab.unmountedRoots l'.
Proof.
  induction l as [ | o r IH]; simpl; [reflexivity | ].
  destruct o; simpl; rewrite IH; reflexivity.
Qed.

Lemma invoke_tabInvariant (m : SettingTab.Method) (t : SettingTab.Tab) :
  tabInvariant t -> tabInvariant (SettingTab.invoke m t).
Proof.
  intros [Hseq Hlive].
  assert (Hide : tabInvariant (SettingTab.hide t)).
  { unfold SettingTab.hide, SettingTab.call, tabInvariant.
    destruct (SettingTab.root t) as [r | ] eqn:Hroot; simpl; rewrite ?Hroot;
      rewrite ?createdRoots_app, ?unmountedRoots_app; simpl;
      rewrite ?app_nil_r in *; split; congruence. }
  destruct m; simpl; try exact Hide.
  unfold SettingTab.display, SettingTab.renderContent, SettingTab.call, tabInvariant.
  simpl. destruct (SettingTab.root t) as [r | ] eqn:Hroot; simpl; rewrite ?Hroot;
    rewrite ?createdRoots_app, ?unmountedRoots_app; simpl;
    rewrite ?app_nil_r in *; split; try congruence.
  change (0%nat :: seq 1 (SettingTab.created t)) with (seq 0 (S (SettingTab.created t))).
  rewrite Hseq, seq_S. reflexivity.
Qed.

Lemma run_from_tabInvariant (ms : list SettingTab.Method) (t : SettingTab.Tab) :
  tabInvariant t ->
  tabInvariant (fold_left (fun t m => SettingTab.invoke m t) ms t).
Proof.
  revert t. induction ms as [ | m r IH]; intros t Ht; simpl; [exact Ht | ].
  apply IH, invoke_tabInvariant, Ht.
Qed.

(** X21.  However [display], [hide] and [closeSettingsTab] are interleaved, the
    tab holds at most one React root; every root it created earlier has
    been unmounted, exactly once and in the order of creation, and no root
    is created while one is held.  After [display] a root is held and has
    just been rendered into; after [hide] or [closeSettingsTab] none is
    held. *)
Theorem tab_holds_one_root (ms : list SettingTab.Method) :
  let t := SettingTab.run ms in
  SettingTab.createdRoots (SettingTab.calls t)
  = SettingTab.unmountedRoots (SettingTab.calls t)
    ++ match SettingTab.root t with Some r => [r] | None => [] end
  /\ NoDup (SettingTab.createdRoots (SettingTab.calls t))
  /\ (exists r, SettingTab.root (SettingTab.display t) = Some r
                /\ last (SettingTab.calls (SettingTab.display t)) SettingTab.Empty
                   = SettingTab.Render r)
  /\ SettingTab.root (SettingTab.hide t) = None
  /\ SettingTab.root (SettingTab.closeSettingsTab t) = None
  /\ SettingTab.calls (SettingTab.hide (SettingTab.hide t))
     = SettingTab.calls (SettingTab.hide t) ++ [SettingTab.Empty].
Proof.
  intros t.
  assert (Ht : tabInvariant t).
  { apply run_from_tabInvariant. split; reflexivity. }
  destruct Ht as [Hseq Hlive]. clearbody t.
  split; [exact Hlive | ]. split; [rewrite Hseq; apply seq_NoDup | ].
  split; [ | split; [ | split]].
  - unfold SettingTab.display, SettingTab.renderContent, SettingTab.call. simpl.
    destruct (SettingTab.root t) as [r | ] eqn:Hroot; simpl; rewrite ?Hroot; simpl.
    + exists r. split; [reflexivity | ]. apply last_last.
    + eexists. split; [reflexivity | ]. apply last_last.
  - unfold SettingTab.hide, SettingTab.call.
    destruct (SettingTab.root t) eqn:Hroot; simpl; rewrite ?Hroot; reflexivity.
  - unfold SettingTab.closeSettingsTab, SettingTab.hide, SettingTab.call.
    destruct (SettingTab.root t) eqn:Hroot; simpl; rewrite ?Hroot; reflexivity.
  - unfold SettingTab.hide, SettingTab.call.
    destruct (SettingTab.root t) eqn:Hroot; simpl; rewrite ?Hroot; reflexivity.
Qed.

(** * Mounting and measuring *)

(** X15.  A widget that has just been mounted is closed: no dropdown element,
    no row, window start [0], a control of automatic width with the arrow
    pointing down.  With an empty option list the mount measures nothing
    and cannot fail, whatever the host: the cached width stays [0]. *)
Theorem mount_starts_closed (h : Host) (p : SelectProps) (w : World) :
  (forall w', step h (Mount p) w = Returned tt w' ->
     mounted w' = Some p
     /\ isOpen (state w') = false
     /\ visibleStartIndex (state w') = 0
     /\ dropdownRef w' = None
     /\ rowsOnScreen w' = []
     /\ exists v, view w' = Some v /\ dropdown v = None
                  /\ controlWidth v = Auto /\ arrow v = ChevronDown)
  /\ (elements (options p) = [] ->
      exists w', step h (Mount p) w = Returned tt w'
                 /\ maxDropdownWidth (state w') = 0
                 /\ log w' = log w).
Proof.
  change (step h (Mount p) w) with (mount h p w). rewrite mount_measure.
  set (w0 := withListeners _ _). split.
  - intros w' Hs.
    pose proof (measureOptions_keeps_mounted h p w0) as Km.
    pose proof (measureOptions_keeps_open h p w0) as Ko.
    pose proof (measureOptions_keeps_start h p w0) as Ks.
    pose proof (measureOptions_keeps_dropdown h p w0) as Kd.
    rewrite Hs in Km, Ko, Ks, Kd. simpl in Km, Ko, Ks, Kd.
    split; [exact Km | ]. split; [exact Ko | ]. split; [exact Ks | ].
    split; [exact Kd | ]. split; [apply rowsOnScreen_closed; exact Ko | ].
    unfold view. rewrite Km. eexists. split; [reflexivity | ].
    unfold render. simpl. rewrite Ko. auto.
  - intros He. rewrite measureOptions_empty
      by (unfold optionCount; rewrite He; reflexivity).
    exists w0. auto.
Qed.

Lemma mount_starts_closed_witness :
  exists w', step Example.brokenHost (Mount (Example.props 3 0 1)) Example.page
             = Returned tt w'
             /\ maxDropdownWidth (state w') = 0
             /\ log w' = log Example.page.
Proof.
  exact (proj2 (mount_starts_closed Example.brokenHost (Example.props 3 0 1) Example.page)
           eq_refl).
Defined.

Lemma widestLabel_nonneg (h : Host) (st : ProbeStyle) (opts : list SelectOption.t) :
  0 <= widestLabel h st opts.
Proof.
  unfold widestLabel.
  destruct (fold_max_bounds (fun opt => offsetWidth h st (SelectOption.label opt))
              opts 0) as (H0 & _).
  exact H0.
Qed.

Lemma measureLabels_permutation (h : Host) (st : ProbeStyle)
    (l l' : list SelectOption.t) (a : Z) :
  Permutation l l' ->
  fold_left (fun maxWidth option =>
               Z.max maxWidth (offsetWidth h st (SelectOption.label option) + 20)) l a
  = fold_left (fun maxWidth option =>
                 Z.max maxWidth (offsetWidth h st (SelectOption.label option) + 20)) l' a.
Proof.
  intros HP. revert a.
  induction HP as [ | x l l' _ IH | x y l | l l' l'' _ IH1 _ IH2]; intros a; simpl.
  - reflexivity.
  - apply IH.
  - f_equal. lia.
  - rewrite IH1. apply IH2.
Qed.

(** X16.  On a host whose layout widths are not negative, measuring a
    non-empty list caches a width of at least [20], so from then on the
    open widget has a pixel width and never the automatic one; the cached
    width does not depend on the order of the options and does not shrink
    when an option is added. *)
Theorem measured_width_is_a_pixel_width (h : Host) (st : ProbeStyle)
    (opts : list SelectOption.t) (p : SelectProps) (s : State) :
  opts <> [] ->
  (forall opt, In opt opts -> 0 <= offsetWidth h st (SelectOption.label opt)) ->
  20 <= measureLabels h st opts
  /\ (isOpen s = true -> maxDropdownWidth s = measureLabels h st opts ->
      controlWidth (render p s) = Px (measureLabels h st opts))
  /\ (forall opt, measureLabels h st opts <= measureLabels h st (opts ++ [opt]))
  /\ (forall opts', Permutation opts opts' ->
        measureLabels h st opts' = measureLabels h st opts).
Proof.
  intros Hne Hpos.
  assert (H20 : 20 <= measureLabels h st opts).
  { rewrite (measureLabels_widest h st opts Hne Hpos).
    pose proof (widestLabel_nonneg h st opts). lia. }
  split; [exact H20 | ]. split; [ | split].
  - intros Ho Hw. unfold render. simpl. rewrite Ho, Hw.
    assert (E : (0 <? measureLabels h st opts) = true) by (apply Z.ltb_lt; lia).
    rewrite E. reflexivity.
  - intros opt. unfold measureLabels. rewrite fold_left_app. simpl. lia.
  - intros opts' HP. unfold measureLabels. symmetry.
    apply measureLabels_permutation. exact HP.
Qed.

Lemma measured_width_is_a_pixel_width_witness :
  20 <= measureLabels Example.host
          (probeStyle (fontFamily Example.style) (fontSize Example.style))
          (Example.numbered 3).
Proof.
  apply (measured_width_is_a_pixel_width Example.host
           (probeStyle (fontFamily Example.style) (fontSize Example.style))
           (Example.numbered 3) (Example.props 2 3 30) initialState).
  - discriminate.
  - intros opt _.
    change (0 <= 24 + 8 * Z.of_nat (String.length (SelectOption.label opt))). lia.
Defined.
